(** * Stellar stablecoin wizard: step controller, stepper progress and
      ledger error handling.

    A shallow embedding of [src/app/page.tsx] (the [Home] component and its
    navigation handlers), [src/components/Stepper.tsx] (the progress bar),
    [src/components/CreateTrustline.tsx] and [src/components/PathPayment.tsx]
    (the two ledger actions and their error handlers).

    Step ids are JavaScript strings at run time ([goToStep] receives a plain
    [string] and casts it), so they are strings here; the set of completed
    steps is a [gset string]. *)

From Stdlib Require Import ZArith QArith Qround.
From stdpp Require Import base decidable option list gmap strings sets fin_sets pretty.

Local Open Scope Z_scope.
Local Open Scope string_scope.

Set Warnings "-clear-no-such-hyp".

(** ** JavaScript helpers *)

Module Js.

(** Truthiness of a string: only the empty string is falsy. *)
Definition truthy (s : string) : bool := negb (String.eqb s "").

(** [Array.prototype.indexOf]: position of the first occurrence, [-1] when
    absent. *)
Fixpoint indexOf_from (l : list string) (x : string) (i : Z) : Z :=
  match l with
  | [] => -1
  | y :: l' => if decide (y = x) then i else indexOf_from l' x (i + 1)
  end.

Definition indexOf (l : list string) (x : string) : Z := indexOf_from l x 0.

(** [arr[i]]: [None] stands for [undefined] (negative or past the end). *)
Definition get {A} (l : list A) (i : Z) : option A :=
  if decide (0 <= i) then l !! Z.to_nat i else None.

(** [Array.prototype.findIndex]. *)
Fixpoint findIndex_from {A} (p : A → bool) (l : list A) (i : Z) : Z :=
  match l with
  | [] => -1
  | y :: l' => if p y then i else findIndex_from p l' (i + 1)
  end.

Definition findIndex {A} (p : A → bool) (l : list A) : Z := findIndex_from p l 0.

(** [String.prototype.includes]. *)
Fixpoint includes (s needle : string) : bool :=
  String.prefix needle s ||
  match s with
  | EmptyString => false
  | String _ s' => includes s' needle
  end.

End Js.

(** ** [src/app/page.tsx]: the wizard state *)

Abbreviation StepId := string.

Inductive Status := pending | active | done.

#[global] Instance Status_eq_dec : EqDecision Status.
Proof. solve_decision. Defined.

(** The four [useState] cells of [Home]. *)
Record Home := mkHome {
  publicKey : string;
  refreshKey : Z;
  currentStep : StepId;
  completedSteps : gset StepId;
}.

Definition setPublicKey (k : string) (s : Home) : Home :=
  mkHome k (refreshKey s) (currentStep s) (completedSteps s).
Definition setRefreshKey (f : Z → Z) (s : Home) : Home :=
  mkHome (publicKey s) (f (refreshKey s)) (currentStep s) (completedSteps s).
Definition setCurrentStep (c : StepId) (s : Home) : Home :=
  mkHome (publicKey s) (refreshKey s) c (completedSteps s).
Definition setCompletedSteps (d : gset StepId) (s : Home) : Home :=
  mkHome (publicKey s) (refreshKey s) (currentStep s) d.

(** State of the first render. *)
Definition initial : Home := mkHome "" 0 "connect" ∅.

Definition getStepStatus (s : Home) (stepId : StepId) : Status :=
  if decide (stepId ∈ completedSteps s) then done
  else if decide (currentStep s = stepId) then active
  else pending.

Record Step := mkStep {
  id : string;
  title : string;
  description : string;
  optional : bool;
  status : Status;
}.

Definition steps (s : Home) : list Step :=
  [ mkStep "connect" "Conectar Wallet" "Conecta tu wallet Freighter para comenzar"
      false (getStepStatus s "connect");
    mkStep "trustline" "Crear Trustline" "Autoriza recibir USDC en tu cuenta"
      false (getStepStatus s "trustline");
    mkStep "balance" "Ver Balance" "Consulta tu saldo de USDC"
      false (getStepStatus s "balance");
    mkStep "payment" "Path Payment" "Intercambia assets automáticamente"
      true (getStepStatus s "payment") ].

Definition order : list StepId := ["connect"; "trustline"; "balance"; "payment"].

Definition goToStep (stepId : string) (s : Home) : Home :=
  let step := stepId in
  if decide (step ∈ completedSteps s ∨ step = currentStep s)
  then setCurrentStep step s
  else s.

(** [order[i + 1]] is read only under the guard [i < order.length - 1], and
    [indexOf] is at least [-1], so the read is always defined
    ([goNext_read_defined] below); the [default] is never taken. *)
Definition goNext (s : Home) : Home :=
  let i := Js.indexOf order (currentStep s) in
  if decide (i < Z.of_nat (length order) - 1) then
    let newCompleted := completedSteps s ∪ {[ currentStep s ]} in
    setCurrentStep (default (currentStep s) (Js.get order (i + 1)))
      (setCompletedSteps newCompleted s)
  else
    let newCompleted := completedSteps s ∪ {[ currentStep s ]} in
    setCompletedSteps newCompleted s.

Definition goPrev (s : Home) : Home :=
  let i := Js.indexOf order (currentStep s) in
  if decide (i > 0)
  then setCurrentStep (default (currentStep s) (Js.get order (i - 1))) s
  else s.

Definition resetFlow (s : Home) : Home :=
  setPublicKey "" (setCompletedSteps ∅ (setCurrentStep "connect" s)).

Definition handleWalletConnect (key : string) (s : Home) : Home :=
  setPublicKey key s.

Definition handleTrustlineSuccess (s : Home) : Home :=
  setRefreshKey (λ prev, prev + 1) s.

Definition canProceed (s : Home) : bool :=
  if decide (currentStep s = "connect") then Js.truthy (publicKey s)
  else if decide (currentStep s = "trustline") then true
  else if decide (currentStep s = "balance") then true
  else if decide (currentStep s = "payment") then true
  else false.

Definition isFlowComplete (s : Home) : bool :=
  bool_decide ("balance" ∈ completedSteps s).

(** ** [src/components/Stepper.tsx]: what the side bar derives from [steps] *)

Module Stepper.

Definition isDone (st : Step) : bool := bool_decide (status st = done).
Definition isActive (st : Step) : bool := bool_decide (status st = active).

Definition activeIndex (steps : list Step) : Z := Js.findIndex isActive steps.

(** [steps.filter(s => s.status === "done").length] *)
Definition doneCount (steps : list Step) : nat := length (List.filter isDone steps).

(** [(doneCount / steps.length) * 100]; the quotients that occur are
    multiples of a quarter, which binary floating point represents exactly,
    so the arithmetic is carried out on rationals. *)
Definition percentage (steps : list Step) : Q :=
  (inject_Z (Z.of_nat (doneCount steps)) / inject_Z (Z.of_nat (length steps))) * 100.

(** [Math.round]: nearest integer, halves upwards. *)
Definition round (q : Q) : Z := Qfloor (q + (1 # 2)).

Definition label (steps : list Step) : Z := round (percentage steps).

End Stepper.

(** ** The wizard as a transition system *)

Inductive Event :=
| Advance
| Retreat
| JumpTo (target : string)
| Reset
| WalletConnected (key : string)
| TrustlineCreated.

Definition handle (e : Event) (s : Home) : Home :=
  match e with
  | Advance => goNext s
  | Retreat => goPrev s
  | JumpTo t => goToStep t s
  | Reset => resetFlow s
  | WalletConnected k => handleWalletConnect k s
  | TrustlineCreated => handleTrustlineSuccess s
  end.

Definition run (es : list Event) (s : Home) : Home := foldl (λ s e, handle e s) s es.

Inductive reachable : Home → Prop :=
| reach_initial : reachable initial
| reach_handle e s : reachable s → reachable (handle e s).

(** [n] successive clicks on "Continuar". *)
Definition advances (n : nat) : Home := Nat.iter n goNext initial.

(** The state once the wallet has answered with an address. *)
Definition connected : Home := handleWalletConnect "GABC" initial.

(** ** Well-formed states *)

(** The current step is one of the four ids and so is every completed one. *)
Definition wf (s : Home) : Prop :=
  currentStep s ∈ order ∧ ∀ c, c ∈ completedSteps s → c ∈ order.

(** * The ledger actions *)

(** ** Values thrown into the [catch] blocks

    The handlers look at a thrown value only through [err?.message] and
    [err?.response?.data?.extras?.result_codes?.operations?.[0]]; a field
    that is missing (or, for [data], falsy) is [None]. *)

Module Thrown.

Record ResultCodes := mkResultCodes { operations : option (list string) }.
Record Extras := mkExtras { result_codes : option ResultCodes }.
Record Data := mkData { extras : option Extras }.
Record Response := mkResponse { data : option Data }.

(** [message] is [None] when [typeof err?.message] is not ['string']. *)
Record Err := mkErr {
  message : option string;
  response : option Response;
}.

(** [new Error(msg)] *)
Definition newError (msg : string) : Err := mkErr (Some msg) None.

(** An error answer of the ledger gateway carrying operation result codes. *)
Definition horizonError (msg : string) (codes : list string) : Err :=
  mkErr (Some msg)
    (Some (mkResponse (Some (mkData (Some (mkExtras (Some (mkResultCodes (Some codes))))))))).

(** [typeof err?.message === 'string' && err.message.includes(needle)] *)
Definition messageIncludes (err : Err) (needle : string) : bool :=
  match message err with
  | Some m => Js.includes m needle
  | None => false
  end.

(** [rc.operations?.[0]] *)
Definition firstCode (rc : ResultCodes) : option string :=
  ops ← operations rc; head ops.

(** [d.extras?.result_codes?.operations?.[0]] *)
Definition firstOperation (d : Data) : option string :=
  e ← extras d; rc ← result_codes e; firstCode rc.

(** [err?.response?.data] *)
Definition responseData (err : Err) : option Data :=
  r ← response err; data r.

(** [err?.response?.data?.extras?.result_codes] *)
Definition resultCodes (err : Err) : option ResultCodes :=
  d ← responseData err; e ← extras d; result_codes e.

End Thrown.

Import Thrown.

Inductive StatusType := st_empty | st_success | st_warning | st_error.

Record StatusMsg := mkStatus { type : StatusType; msg : string }.

(** [x || fallback] on a possibly undefined string. *)
Definition or_else (x : option string) (fallback : string) : string :=
  match x with
  | Some s => if Js.truthy s then s else fallback
  | None => fallback
  end.

(** Template interpolation of a possibly undefined string. *)
Definition interpolate (x : option string) : string :=
  match x with
  | Some s => s
  | None => "undefined"
  end.

(** The [catch] block of [createTrustline] in
    [src/components/CreateTrustline.tsx]. *)
Definition trustlineErrorMessage (err : Err) : string :=
  if messageIncludes err "User declined" then
    "❌ Rechazaste la transacción en Freighter"
  else if messageIncludes err "User rejected" then
    "❌ Rechazaste la transacción en Freighter"
  else match responseData err with
  | Some d =>
      let resultCode := firstOperation d in
      if decide (resultCode = Some "op_low_reserve") then
        "💰 Balance insuficiente. Necesitas al menos 0.5 XLM más."
      else if decide (resultCode = Some "op_line_full") then
        "⚠️ Ya tienes la trustline creada."
      else if decide (resultCode = Some "op_malformed") then
        "🔧 Error en la construcción de la transacción. Verifica el asset."
      else
        "🌐 Error de Stellar: " +:+ or_else resultCode "Desconocido"
  | None =>
      if decide (message err = Some "Request failed with status code 400") then
        "🔧 Error al procesar la transacción firmada. Verifica el formato del XDR."
      else match message err with
      | Some m => m
      | None => "Error desconocido"
      end
  end.

Definition trustlineErrorStatus (err : Err) : StatusMsg :=
  mkStatus st_error ("❌ " +:+ trustlineErrorMessage err).

(** The [catch] block of [sendPathPayment] in
    [src/components/PathPayment.tsx]. *)
Definition paymentErrorMessage (err : Err) : string :=
  if messageIncludes err "User declined" then
    "❌ Rechazaste la transacción"
  else if messageIncludes err "User rejected" then
    "❌ Rechazaste la transacción"
  else match resultCodes err with
  | Some rc =>
      let code := firstCode rc in
      if decide (code = Some "op_no_destination") then
        "🔍 La cuenta destino no existe"
      else if decide (code = Some "op_no_trust") then
        "⚠️ El destino no tiene trustline para ese asset"
      else if decide (code = Some "op_under_dest_min") then
        "💱 No hay suficiente liquidez en el DEX"
      else if decide (code = Some "op_over_source_max") then
        "💰 Cantidad insuficiente"
      else if decide (code = Some "op_underfunded") then
        "💸 Balance insuficiente"
      else if decide (code = Some "op_src_no_trust") then
        "⚠️ No tienes trustline para el asset origen"
      else
        "🌐 Error de Stellar: " +:+ interpolate code
  | None =>
      match message err with
      | Some m => m
      | None => "Error desconocido"
      end
  end.

Definition paymentErrorStatus (err : Err) : StatusMsg :=
  mkStatus st_error ("❌ " +:+ paymentErrorMessage err).

(** ** The message tables *)

(** The result codes each handler knows, with the message shown for them. *)
Definition trustlineMessages : list (string * string) :=
  [ ("op_low_reserve", "💰 Balance insuficiente. Necesitas al menos 0.5 XLM más.");
    ("op_line_full", "⚠️ Ya tienes la trustline creada.");
    ("op_malformed", "🔧 Error en la construcción de la transacción. Verifica el asset.") ].

Definition paymentMessages : list (string * string) :=
  [ ("op_no_destination", "🔍 La cuenta destino no existe");
    ("op_no_trust", "⚠️ El destino no tiene trustline para ese asset");
    ("op_under_dest_min", "💱 No hay suficiente liquidez en el DEX");
    ("op_over_source_max", "💰 Cantidad insuficiente");
    ("op_underfunded", "💸 Balance insuficiente");
    ("op_src_no_trust", "⚠️ No tienes trustline para el asset origen") ].

Definition genericPrefix : string := "🌐 Error de Stellar: ".

(** The user turned the signature request down. *)
Definition declined (err : Err) : bool :=
  messageIncludes err "User declined" || messageIncludes err "User rejected".

(** The message shown when the user turned the signature request down. *)
Definition trustlineRejected : string := "❌ Rechazaste la transacción en Freighter".
Definition paymentRejected : string := "❌ Rechazaste la transacción".

(** ** Effects of an action

    An action of a leaf view updates the [useState] cells of its component,
    writes to the console, inserts rows into the hosted database, calls back
    into its parent, and may throw. The answers of the collaborators (wallet
    bridge, ledger gateway, database client) during one run are given from
    outside. *)

Module Effects.

(** What went wrong in the database client (the [error] field of its
    answer). *)
Record DbError := mkDbError { db_message : string; db_code : string }.

Inductive Arg :=
| a_str (s : string)
| a_err (e : Err)
| a_db (e : DbError).

Inductive Output (Row : Type) :=
| console_log (args : list Arg)
| console_error (args : list Arg)
| db_insert (table : string) (row : Row)
| on_success.

Arguments console_log {Row} args.
Arguments console_error {Row} args.
Arguments db_insert {Row} table row.
Arguments on_success {Row}.

(** [comp]: the state cells of the component; [outputs]: what the run has
    emitted so far, oldest first. *)
Record World (Row C : Type) := mkWorld {
  comp : C;
  outputs : list (Output Row);
}.

Arguments mkWorld {Row C} comp outputs.
Arguments comp {Row C} w.
Arguments outputs {Row C} w.

(** A computation either returns or throws, and leaves a world behind. *)
Definition M (Row C A : Type) : Type := World Row C → (Err + A) * World Row C.

#[global] Instance M_ret {Row C} : MRet (M Row C) := λ A a w, (inr a, w).

#[global] Instance M_bind {Row C} : MBind (M Row C) := λ A B f m w,
  match m w with
  | (inr a, w') => f a w'
  | (inl e, w') => (inl e, w')
  end.

Definition throw {Row C A} (e : Err) : M Row C A := λ w, (inl e, w).

(** [if (cond) throw e;] *)
Definition throw_if {Row C} (cond : bool) (e : Err) : M Row C unit :=
  if cond then throw e else mret tt.

(** Awaiting a collaborator that answered or rejected. *)
Definition await {Row C A} (answer : Err + A) : M Row C A :=
  match answer with
  | inl e => throw e
  | inr a => mret a
  end.

Definition emit {Row C} (o : Output Row) : M Row C unit :=
  λ w, (inr tt, mkWorld (comp w) (outputs w ++ [o])).

Definition update {Row C} (f : C → C) : M Row C unit :=
  λ w, (inr tt, mkWorld (f (comp w)) (outputs w)).

(** [try { body } catch (err) { handler }] *)
Definition try_catch {Row C A} (body : M Row C A) (handler : Err → M Row C A)
  : M Row C A :=
  λ w, match body w with
       | (inl e, w') => handler e w'
       | ok => ok
       end.

(** [try { body } finally { final }] *)
Definition finally {Row C A} (body : M Row C A) (final : M Row C unit)
  : M Row C A :=
  λ w, let '(r, w') := body w in
       match final w' with
       | (inl e, w'') => (inl e, w'')
       | (inr _, w'') => (r, w'')
       end.

(** [s.substring(0, n) + '...'] and [s.slice(0, n)] on strings. *)
Definition take_chars (n : nat) (s : string) : string := String.substring 0 n s.

End Effects.

Import Effects.

(** ** Answers of the collaborators *)

Record Asset := mkAsset { code : string; issuer : string }.

Definition USDC_TESTNET : Asset :=
  mkAsset "USDC" "GBBD47IF6LWK7P7MDEVSCWR7DPUWV3NY3DTQEVFL4NAT4AQH3ZLLFLA5".

(** One entry of [account.balances]; the native entry has neither code nor
    issuer. *)
Record Balance := mkBalance {
  asset_code : option string;
  asset_issuer : option string;
  balance : string;
}.

Record Account := mkAccount {
  sequenceNumber : string;
  balances : list Balance;
}.

(** Answer of the wallet bridge to [getAddress]. *)
Record AddressResult := mkAddressResult {
  address : string;
  address_error : option string;
}.

(** Answer of the wallet bridge to [signTransaction]. *)
Record SignResult := mkSignResult {
  signedTxXdr : string;
  sign_error : option string;
}.

(** Answer of the ledger gateway to [submitTransaction]. *)
Record SubmitResult := mkSubmitResult { hash : string }.

(** Truthiness of an optional string. *)
Definition truthy_opt (x : option string) : bool :=
  match x with
  | Some s => Js.truthy s
  | None => false
  end.

(** ** [src/components/CreateTrustline.tsx] *)

Module CreateTrustline.

(** A row of the [trustlines] table. *)
Record Row := mkRow {
  user_id : string;
  row_asset_code : string;
  row_asset_issuer : string;
  trust_limit : Z;
  tx_hash : string;
}.

(** Answer of the database client to the [select]. *)
Record SelectResult := mkSelectResult {
  select_data : option (list Row);
  select_error : option DbError;
}.

Record Props := mkProps {
  asset : Asset;
  onSuccess : bool;  (* whether the optional callback is passed *)
}.

Record State := mkState {
  loading : bool;
  status : StatusMsg;
  trustlineExists : bool;
}.

(** What each collaborator answers in one run of [createTrustline], in the
    order of the calls. A constructor of the ledger SDK either throws or
    not; the database client never rejects, it reports in its answer. *)
Record Answers := mkAnswers {
  getAddress : Err + AddressResult;
  check_loadAccount : Err + Account;
  check_select : SelectResult;
  loadAccount : Err + Account;
  newAsset : option Err;
  build_toXDR : Err + string;
  signTransaction : Err + SignResult;
  newTransaction : option Err;
  submitTransaction : Err + SubmitResult;
  insert : option DbError;
}.

Inductive Source := blockchain | database.

Abbreviation Act := (M Row State).

Definition setLoading (b : bool) : Act unit :=
  update (λ c, mkState b (status c) (trustlineExists c)).
Definition setStatus (st : StatusMsg) : Act unit :=
  update (λ c, mkState (loading c) st (trustlineExists c)).
Definition setTrustlineExists (b : bool) : Act unit :=
  update (λ c, mkState (loading c) (status c) b).

Definition log (args : list Arg) : Act unit := emit (console_log args).
Definition log_error (args : list Arg) : Act unit := emit (console_error args).

(** A constructor that may throw. *)
Definition construct (answer : option Err) : Act unit :=
  match answer with
  | Some e => throw e
  | None => mret tt
  end.

Section Run.

Variables (props : Props) (ext : Answers).

(** [b.asset_code === asset.code && b.asset_issuer === asset.issuer] *)
Definition holds_asset (b : Balance) : bool :=
  bool_decide (asset_code b = Some (code (asset props))) &&
  bool_decide (asset_issuer b = Some (issuer (asset props))).

Definition checkExistingTrustline (publicKey : string) : Act (bool * option Source) :=
  try_catch
    (account ← await (check_loadAccount ext);
     let existsOnChain := existsb holds_asset (balances account) in
     if existsOnChain then mret (true, Some blockchain)
     else
       let answer := check_select ext in
       match select_error answer with
       | Some error =>
           log_error [a_str "Error checking Supabase:"; a_db error];;
           mret (false, None)
       | None =>
           match select_data answer with
           | Some (_ :: _) => mret (true, Some database)
           | _ => mret (false, None)
           end
       end)
    (λ err,
       log_error [a_str "Error checking trustline:"; a_err err];;
       mret (false, None)).

Definition createTrustline : Act unit :=
  setLoading true;;
  setStatus (mkStatus st_empty "");;
  finally
    (try_catch
       (addressResult ← await (getAddress ext);
        throw_if (truthy_opt (address_error addressResult))
          (newError (interpolate (address_error addressResult)));;
        let publicKey := address addressResult in
        throw_if (negb (Js.truthy publicKey))
          (newError "No se pudo obtener la public key. ¿Está Freighter conectado?");;
        log [a_str "✅ Public Key obtenida:"; a_str publicKey];;
        '(found, _) ← checkExistingTrustline publicKey;
        if found : bool then
          setTrustlineExists true;;
          setStatus (mkStatus st_warning
            ("⚠️ Ya tienes una trustline para " +:+ code (asset props)
             +:+ ". No necesitas crear otra."));;
          setLoading false
        else
          log [a_str "🔗 Conectando a Stellar Testnet..."];;
          account ← await (loadAccount ext);
          log [a_str "✅ Cuenta cargada, sequence:"; a_str (sequenceNumber account)];;
          construct (newAsset ext);;
          log [a_str "✅ Asset definido:"; a_str (code (asset props));
               a_str (issuer (asset props))];;
          xdr ← await (build_toXDR ext);
          log [a_str "✅ Transacción construida"];;
          log [a_str "📝 XDR sin firmar:"; a_str (take_chars 50 xdr +:+ "...")];;
          signResult ← await (signTransaction ext);
          throw_if (truthy_opt (sign_error signResult))
            (newError (interpolate (sign_error signResult)));;
          let signedTxXdr := signedTxXdr signResult in
          log [a_str "✅ Transacción firmada por Freighter"];;
          log [a_str "📝 XDR firmado:"; a_str (take_chars 50 signedTxXdr +:+ "...")];;
          construct (newTransaction ext);;
          log [a_str "🚀 Enviando transacción a Stellar..."];;
          result ← await (submitTransaction ext);
          log [a_str "✅ Transacción enviada exitosamente:"; a_str (hash result)];;
          emit (db_insert "trustlines"
                  (mkRow publicKey (code (asset props)) (issuer (asset props))
                     10000 (hash result)));;
          match insert ext with
          | Some dbError => log_error [a_str "⚠️ Error saving to Supabase:"; a_db dbError]
          | None => log [a_str "✅ Guardado en Supabase"]
          end;;
          setStatus (mkStatus st_success
            ("✅ Trustline creada exitosamente! Ahora puedes recibir "
             +:+ code (asset props) +:+ "."));;
          setTrustlineExists true;;
          if onSuccess props then emit on_success else mret tt)
       (λ err,
          log_error [a_str "❌ Error creating trustline:"; a_err err];;
          setStatus (trustlineErrorStatus err)))
    (setLoading false).

End Run.

(** The same answers, except for the one of the [insert]. *)
Definition with_insert (answer : option DbError) (ext : Answers) : Answers :=
  mkAnswers (getAddress ext) (check_loadAccount ext) (check_select ext)
    (loadAccount ext) (newAsset ext) (build_toXDR ext) (signTransaction ext)
    (newTransaction ext) (submitTransaction ext) answer.

(** State of the first render. *)
Definition initial : State := mkState false (mkStatus st_empty "") false.

(** Console lines and the status that mark the stages of a run. *)
Definition submitted_log (h : string) : Output Row :=
  console_log [a_str "✅ Transacción enviada exitosamente:"; a_str h].
Definition saved_log : Output Row :=
  console_log [a_str "✅ Guardado en Supabase"].
Definition not_saved_log (e : DbError) : Output Row :=
  console_error [a_str "⚠️ Error saving to Supabase:"; a_db e].
Definition caught_log (e : Err) : Output Row :=
  console_error [a_str "❌ Error creating trustline:"; a_err e].

Definition success (props : Props) : StatusMsg :=
  mkStatus st_success
    ("✅ Trustline creada exitosamente! Ahora puedes recibir "
     +:+ code (asset props) +:+ ".").

(** Two outputs are the same, or are the two console lines that report on
    the [insert]. *)
Definition same_but_insert (e : DbError) (o1 o2 : Output Row) : Prop :=
  o1 = o2 ∨ (o1 = saved_log ∧ o2 = not_saved_log e).

(** A run from a given component state, with nothing emitted yet. *)
Definition run {A} (act : Act A) (c : State) : (Err + A) * World Row State :=
  act (mkWorld c []).

(** Answers of a session in which the ledger accepts the transaction. *)
Definition accepted : Answers :=
  mkAnswers
    (inr (mkAddressResult "GABC" None))
    (inr (mkAccount "41" [mkBalance None None "100.0000000"]))
    (mkSelectResult (Some []) None)
    (inr (mkAccount "41" [mkBalance None None "100.0000000"]))
    None
    (inr "AAAAAgAAAAA")
    (inr (mkSignResult "AAAAAgAAAAB" None))
    None
    (inr (mkSubmitResult "cafe0123456789"))
    None.

End CreateTrustline.

(** ** [src/components/PathPayment.tsx] *)

Module PathPayment.

(** An asset object of the ledger SDK, seen through [getCode()]. *)
Record SdkAsset := mkSdkAsset { getCode : string; getIssuer : option string }.

(** [Asset.native()] *)
Definition native : SdkAsset := mkSdkAsset "XLM" None.

Record Props := mkProps {
  sourceAsset : SdkAsset;
  destAsset : SdkAsset;
}.

Record State := mkState {
  amount : string;
  destination : string;
  loading : bool;
  status : StatusMsg;
}.

(** A row of the [transactions] table. *)
Record Row (Number : Type) := mkRow {
  user_id : string;
  tx_type : string;
  tx_hash : string;
  source_asset : string;
  dest_asset : string;
  row_amount : Number;
}.

Arguments mkRow {Number} _ _ _ _ _ _.

(** The operation handed to the transaction builder. *)
Record PathPaymentStrictSend := mkOperation {
  sendAsset : SdkAsset;
  sendAmount : string;
  op_destination : string;
  op_destAsset : SdkAsset;
  destMin : string;
}.

(** What each collaborator answers in one run of [sendPathPayment]; the
    builder is asked with the operation it is to wrap. *)
Record Answers := mkAnswers {
  getAddress : Err + AddressResult;
  loadAccount : Err + Account;
  build_toXDR : PathPaymentStrictSend → Err + string;
  signTransaction : Err + SignResult;
  newTransaction : option Err;
  submitTransaction : Err + SubmitResult;
  insert : option DbError;
}.

Section Run.

(** JavaScript numbers are not modelled: [parseFloat] and the test [x <= 0]
    are parameters. *)
Context {Number : Type}.
Variable parseFloat : string → Number.
Variable nonPositive : Number → bool.

Variables (props : Props) (ext : Answers).

Abbreviation Act := (M (Row Number) State).

Definition setLoading (b : bool) : Act unit :=
  update (λ c, mkState (amount c) (destination c) b (status c)).
Definition setStatus (st : StatusMsg) : Act unit :=
  update (λ c, mkState (amount c) (destination c) (loading c) st).

Definition log (args : list Arg) : Act unit := emit (console_log args).
Definition log_error (args : list Arg) : Act unit := emit (console_error args).

Definition construct (answer : option Err) : Act unit :=
  match answer with
  | Some e => throw e
  | None => mret tt
  end.

(** Reading a state cell of the current render. *)
Definition read {A} (f : State → A) : Act A := λ w, (inr (f (comp w)), w).

Definition sendPathPayment : Act unit :=
  amount ← read amount;
  destination ← read destination;
  setLoading true;;
  setStatus (mkStatus st_empty "");;
  finally
    (try_catch
       (throw_if (negb (Js.truthy amount) || nonPositive (parseFloat amount))
          (newError "Ingresa una cantidad válida");;
        addressResult ← await (getAddress ext);
        throw_if (truthy_opt (address_error addressResult))
          (newError (interpolate (address_error addressResult)));;
        let publicKey := address addressResult in
        throw_if (negb (Js.truthy publicKey))
          (newError "No se pudo obtener la public key. ¿Está Freighter conectado?");;
        log [a_str "✅ Public Key obtenida:"; a_str publicKey];;
        let destKey := if Js.truthy destination then destination else publicKey in
        account ← await (loadAccount ext);
        log [a_str "✅ Cuenta cargada"];;
        let source :=
          if decide (getCode (sourceAsset props) = "XLM") then native
          else sourceAsset props in
        let dest :=
          if decide (getCode (destAsset props) = "XLM") then native
          else destAsset props in
        log [a_str "✅ Assets definidos:"; a_str (getCode source); a_str "→";
             a_str (getCode dest)];;
        xdr ← await (build_toXDR ext
                       (mkOperation source amount destKey dest "0.0000001"));
        log [a_str "✅ Transacción construida"];;
        log [a_str "📝 XDR sin firmar:"; a_str (take_chars 50 xdr +:+ "...")];;
        signResult ← await (signTransaction ext);
        throw_if (truthy_opt (sign_error signResult))
          (newError (interpolate (sign_error signResult)));;
        let signedTxXdr := signedTxXdr signResult in
        log [a_str "✅ Transacción firmada"];;
        construct (newTransaction ext);;
        log [a_str "🚀 Enviando transacción..."];;
        result ← await (submitTransaction ext);
        log [a_str "✅ Transacción exitosa:"; a_str (hash result)];;
        emit (db_insert "transactions"
                (mkRow publicKey "path_payment" (hash result)
                   (getCode (sourceAsset props)) (getCode (destAsset props))
                   (parseFloat amount)));;
        match insert ext with
        | Some dbError =>
            log_error [a_str "⚠️ Error guardando en Supabase:"; a_db dbError]
        | None => log [a_str "✅ Guardado en Supabase"]
        end;;
        setStatus (mkStatus st_success
          ("✅ Path Payment exitoso! Hash: " +:+ take_chars 8 (hash result) +:+ "...")))
       (λ err,
          log_error [a_str "❌ Error in path payment:"; a_err err];;
          setStatus (paymentErrorStatus err)))
    (setLoading false).

End Run.

(** The same answers, except for the one of the [insert]. *)
Definition with_insert (answer : option DbError) (ext : Answers) : Answers :=
  mkAnswers (getAddress ext) (loadAccount ext) (build_toXDR ext)
    (signTransaction ext) (newTransaction ext) (submitTransaction ext) answer.

Section Stages.

Context {Number : Type}.

(** Console lines and the status that mark the stages of a run. *)
Definition submitted_log (h : string) : Output (Row Number) :=
  console_log [a_str "✅ Transacción exitosa:"; a_str h].
Definition saved_log : Output (Row Number) :=
  console_log [a_str "✅ Guardado en Supabase"].
Definition not_saved_log (e : DbError) : Output (Row Number) :=
  console_error [a_str "⚠️ Error guardando en Supabase:"; a_db e].
Definition caught_log (e : Err) : Output (Row Number) :=
  console_error [a_str "❌ Error in path payment:"; a_err e].

Definition success (h : string) : StatusMsg :=
  mkStatus st_success
    ("✅ Path Payment exitoso! Hash: " +:+ take_chars 8 h +:+ "...").

Definition same_but_insert (e : DbError) (o1 o2 : Output (Row Number)) : Prop :=
  o1 = o2 ∨ (o1 = saved_log ∧ o2 = not_saved_log e).

(** A run from a given component state, with nothing emitted yet. *)
Definition run {A} (act : M (Row Number) State A) (c : State)
  : (Err + A) * World (Row Number) State :=
  act (mkWorld c []).

End Stages.

(** Answers of a session in which the ledger accepts the payment. *)
Definition accepted : Answers :=
  mkAnswers
    (inr (mkAddressResult "GABC" None))
    (inr (mkAccount "41" [mkBalance None None "100.0000000"]))
    (λ _, inr "AAAAAgAAAAA")
    (inr (mkSignResult "AAAAAgAAAAB" None))
    None
    (inr (mkSubmitResult "cafe0123456789"))
    None.

End PathPayment.

(** ** [src/components/Stepper.tsx]: clicks and the footer *)

(** [(isDone || isActive) && onStepClick], the parent passing [goToStep]. *)
Definition canClick (st : Step) : bool := Stepper.isDone st || Stepper.isActive st.

(** [onClick={() => canClick && onStepClick(step.id)}] *)
Definition clickStep (st : Step) (s : Home) : Home :=
  if canClick st then goToStep (id st) s else s.

(** The line under the progress bar. [None]: the render throws, reading
    [status] of [undefined]. Numbers are printed in decimal. *)
Definition footer (steps : list Step) : option string :=
  let activeIndex := Stepper.activeIndex steps in
  if decide (activeIndex = Z.of_nat (length steps) - 1) then
    match Js.get steps activeIndex with
    | None => None
    | Some st =>
        if Stepper.isDone st then Some "¡Flujo completado!"
        else Some ("Paso " +:+ pretty (activeIndex + 1) +:+ " de "
                   +:+ pretty (length steps))
    end
  else Some ("Paso " +:+ pretty (activeIndex + 1) +:+ " de "
             +:+ pretty (length steps)).

(** ** [src/components/WalletConnect.tsx] *)

Module WalletConnect.

Record State := mkState {
  publicKey : string;
  loading : bool;
  error : option string;
}.

(** What the wallet bridge answers in one run. *)
Record Answers := mkAnswers {
  isConnected : Err + bool;
  getAddress : Err + AddressResult;
  requestAccess : Err + AddressResult;
}.

(** The component together with the state of its parent, which the
    [onConnect] callback updates. *)
Record Scene (P : Type) := mkScene {
  child : State;
  parent : P;
}.

Arguments mkScene {P} child parent.
Arguments child {P} s.
Arguments parent {P} s.

(** State of the first render. *)
Definition initial : State := mkState "" false None.

(** [address.slice(-n)]: the last [n] characters, the whole string when it
    is shorter. *)
Definition slice_last (n : nat) (s : string) : string :=
  String.substring (String.length s - n) n s.

Definition formatAddress (address : string) : string :=
  if negb (Js.truthy address) then ""
  else take_chars 4 address +:+ "..." +:+ slice_last 4 address.

Section Run.

Context {P : Type}.

(** The [onConnect] prop, and the [TypeError] the engine raises when
    [includes] is called on something that is not a string. *)
Variable onConnect : string → P → P.
Variable typeError : Err.

Variable ext : Answers.

Abbreviation Act := (M Empty_set (Scene P)).

Definition setPublicKey (k : string) : Act unit :=
  update (λ c, mkScene (mkState k (loading (child c)) (error (child c))) (parent c)).
Definition setLoading (b : bool) : Act unit :=
  update (λ c, mkScene (mkState (publicKey (child c)) b (error (child c))) (parent c)).
Definition setError (e : option string) : Act unit :=
  update (λ c, mkScene (mkState (publicKey (child c)) (loading (child c)) e) (parent c)).

(** Calling the prop. *)
Definition notify (k : string) : Act unit :=
  update (λ c, mkScene (child c) (onConnect k (parent c))).

(** The effect run when the component mounts. *)
Definition checkConnection : Act unit :=
  setLoading true;;
  finally
    (try_catch
       (connectedResult ← await (isConnected ext);
        if connectedResult : bool then
          addressResult ← await (getAddress ext);
          if negb (truthy_opt (address_error addressResult))
             && Js.truthy (address addressResult)
          then
            setPublicKey (address addressResult);;
            notify (address addressResult)
          else mret tt
        else mret tt)
       (λ err, emit (console_log [a_str "Freighter not connected:"; a_err err])))
    (setLoading false).

Definition connectWallet : Act unit :=
  setLoading true;;
  setError None;;
  finally
    (try_catch
       (accessResult ← await (requestAccess ext);
        throw_if (truthy_opt (address_error accessResult))
          (newError (interpolate (address_error accessResult)));;
        setPublicKey (address accessResult);;
        notify (address accessResult))
       (λ err,
          match message err with
          | None => throw typeError
          | Some errorMessage =>
              (if Js.includes errorMessage "Freighter"
                  || Js.includes errorMessage "extension"
               then setError (Some "Freighter Wallet no está instalada")
               else setError (Some errorMessage));;
              emit (console_error [a_str "Error connecting wallet:"; a_err err])
          end))
    (setLoading false).

(** A run from a given scene, with nothing emitted yet. *)
Definition run {A} (act : Act A) (c : Scene P)
  : (Err + A) * World Empty_set (Scene P) :=
  act (mkWorld c []).

End Run.

End WalletConnect.

(** ** [src/components/AssetBalance.tsx] *)

(** [b.balance] of an entry of [account.balances]. *)
Definition entry_balance (b : Balance) : string := balance b.

Module AssetBalance.

Record Props := mkProps {
  publicKey : string;
  asset : Asset;
}.

Record State := mkState {
  balance : option string;
  loading : bool;
  error : option string;
}.

(** A rejection of [loadAccount], seen through [err?.response?.status] and
    [err?.message]; a message that is present is a string. *)
Record Rejection := mkRejection {
  thrown : Err;
  http_status : option Z;
}.

(** State of the first render. *)
Definition initial : State := mkState None false None.

Section Run.

Variable props : Props.

Abbreviation Act := (M Empty_set State).

Definition setBalance (b : option string) : Act unit :=
  update (λ c, mkState b (loading c) (error c)).
Definition setLoading (b : bool) : Act unit :=
  update (λ c, mkState (balance c) b (error c)).
Definition setError (e : option string) : Act unit :=
  update (λ c, mkState (balance c) (loading c) e).

(** [b.asset_code === asset.code && b.asset_issuer === asset.issuer] *)
Definition matches (b : Balance) : bool :=
  bool_decide (asset_code b = Some (code (asset props))) &&
  bool_decide (asset_issuer b = Some (issuer (asset props))).

(** [x ?? fallback] *)
Definition nullish_or (x : option string) (fallback : string) : string :=
  match x with
  | Some s => s
  | None => fallback
  end.

(** [loadAccount] is the only statement of the [try] block that can throw;
    its answer decides between the block and the [catch]. *)
Definition fetchBalance (loadAccount : Rejection + Account) : Act unit :=
  if negb (Js.truthy (publicKey props)) then
    setError (Some "Conecta tu wallet primero")
  else
    setLoading true;;
    setError None;;
    match loadAccount with
    | inr account =>
        let assetBalance := List.find matches (balances account) in
        setBalance (Some (match assetBalance with
                          | Some b => entry_balance b
                          | None => "0"
                          end))
    | inl err =>
        (if decide (http_status err = Some 404) then
           setError (Some "Cuenta no encontrada. ¿Tienes XLM en testnet?")
         else
           setError (Some ("Error: " +:+ nullish_or (message (thrown err)) "desconocido")));;
        emit (console_error [a_str "Error fetching balance:"; a_err (thrown err)])
    end;;
    setLoading false.

(** The effect on [publicKey] and [asset]: fetch when a key is there. *)
Definition onKeyChange (loadAccount : Rejection + Account) : Act unit :=
  if Js.truthy (publicKey props) then fetchBalance loadAccount else mret tt.

Definition run {A} (act : Act A) (c : State) : (Err + A) * World Empty_set State :=
  act (mkWorld c []).

End Run.

End AssetBalance.

(** ** Counting events *)


Definition isReset (e : Event) : bool :=
  match e with
  | Reset => true
  | _ => false
  end.

(** ** Replacing the transaction builder of a payment session *)

Definition with_builder (build : PathPayment.PathPaymentStrictSend → Err + string)
    (ext : PathPayment.Answers) : PathPayment.Answers :=
  PathPayment.mkAnswers (PathPayment.getAddress ext) (PathPayment.loadAccount ext)
    build (PathPayment.signTransaction ext) (PathPayment.newTransaction ext)
    (PathPayment.submitTransaction ext) (PathPayment.insert ext).

(** The asset handed to the builder: the native asset for the code XLM. *)
Definition normalized (a : PathPayment.SdkAsset) : PathPayment.SdkAsset :=
  if decide (PathPayment.getCode a = "XLM") then PathPayment.native else a.

(** * Properties of the step controller *)

Section Controller.

Implicit Types (s : Home) (c : StepId).

Lemma indexOf_from_range (l : list string) (x : string) (i : Z) :
  Js.indexOf_from l x i = -1 ∨
  i <= Js.indexOf_from l x i < i + Z.of_nat (length l).
Proof.
  revert i. induction l as [|y l IH]; intros i; simpl; [by left|].
  case_decide; [right; lia|].
  destruct (IH (i + 1)) as [->|?]; [by left | right; lia].
Qed.

Lemma indexOf_ge (l : list string) (x : string) : -1 <= Js.indexOf l x.
Proof. unfold Js.indexOf. destruct (indexOf_from_range l x 0); lia. Qed.

Lemma indexOf_from_absent (l : list string) (x : string) (i : Z) :
  x ∉ l → Js.indexOf_from l x i = -1.
Proof.
  revert i. induction l as [|y l IH]; intros i Hx; simpl; [done|].
  apply not_elem_of_cons in Hx as [Hne Hx].
  case_decide; [congruence | by apply IH].
Qed.

(** The array read of [goNext] never yields [undefined]. *)
Lemma goNext_read_defined c :
  Js.indexOf order c < Z.of_nat (length order) - 1 →
  is_Some (Js.get order (Js.indexOf order c + 1)).
Proof.
  intros Hlt. pose proof (indexOf_ge order c) as Hge.
  unfold Js.get. case_decide; [|lia].
  apply lookup_lt_is_Some. lia.
Qed.

(** Neither does the one of [goPrev]. *)
Lemma goPrev_read_defined c :
  Js.indexOf order c > 0 → is_Some (Js.get order (Js.indexOf order c - 1)).
Proof.
  intros Hgt. unfold Js.indexOf in *.
  destruct (indexOf_from_range order c 0) as [?|?]; [lia|].
  unfold Js.get. case_decide; [|lia].
  apply lookup_lt_is_Some. lia.
Qed.

Lemma elem_of_order c :
  c ∈ order ↔ c = "connect" ∨ c = "trustline" ∨ c = "balance" ∨ c = "payment".
Proof. unfold order. rewrite !elem_of_cons, elem_of_nil. tauto. Qed.

Lemma order_NoDup : NoDup order.
Proof.
  unfold order. repeat apply NoDup_cons_2; try apply NoDup_nil_2;
    rewrite ?elem_of_cons, elem_of_nil; intros H; decompose [or] H; done.
Qed.

End Controller.

(** Case analysis on a step id known to be one of the four. *)
Ltac step_cases H :=
  apply elem_of_order in H; destruct H as [ -> | [ -> | [ -> | -> ] ] ].

(** Splitting on whether an arbitrary string is one of the four ids. *)
Ltac order_or_not c :=
  destruct (decide (c ∈ order)) as [?Hin | ?Hout].

(** ** The handlers, step by step *)

Section Equations.

Variables (pk : string) (rk : Z) (d : gset StepId).

Lemma goNext_connect :
  goNext (mkHome pk rk "connect" d) = mkHome pk rk "trustline" (d ∪ {["connect"]}).
Proof. reflexivity. Qed.

Lemma goNext_trustline :
  goNext (mkHome pk rk "trustline" d) = mkHome pk rk "balance" (d ∪ {["trustline"]}).
Proof. reflexivity. Qed.

Lemma goNext_balance :
  goNext (mkHome pk rk "balance" d) = mkHome pk rk "payment" (d ∪ {["balance"]}).
Proof. reflexivity. Qed.

Lemma goNext_payment :
  goNext (mkHome pk rk "payment" d) = mkHome pk rk "payment" (d ∪ {["payment"]}).
Proof. reflexivity. Qed.

Lemma goPrev_connect :
  goPrev (mkHome pk rk "connect" d) = mkHome pk rk "connect" d.
Proof. reflexivity. Qed.

Lemma goPrev_trustline :
  goPrev (mkHome pk rk "trustline" d) = mkHome pk rk "connect" d.
Proof. reflexivity. Qed.

Lemma goPrev_balance :
  goPrev (mkHome pk rk "balance" d) = mkHome pk rk "trustline" d.
Proof. reflexivity. Qed.

Lemma goPrev_payment :
  goPrev (mkHome pk rk "payment" d) = mkHome pk rk "balance" d.
Proof. reflexivity. Qed.

(** A current step outside the sequence (which no handler produces) has
    index [-1]: [goNext] records it and lands on the first id, [goPrev]
    does nothing. *)
Lemma goNext_stray c :
  c ∉ order → goNext (mkHome pk rk c d) = mkHome pk rk "connect" (d ∪ {[c]}).
Proof.
  intros Hc. unfold goNext, Js.indexOf. simpl currentStep.
  by rewrite (indexOf_from_absent _ _ _ Hc).
Qed.

Lemma goPrev_stray c :
  c ∉ order → goPrev (mkHome pk rk c d) = mkHome pk rk c d.
Proof.
  intros Hc. unfold goPrev, Js.indexOf. simpl currentStep.
  by rewrite (indexOf_from_absent _ _ _ Hc).
Qed.

End Equations.

Create Rewrite HintDb wizard.
#[global] Hint Rewrite goNext_connect goNext_trustline goNext_balance goNext_payment
  goPrev_connect goPrev_trustline goPrev_balance goPrev_payment : wizard.

Lemma order_last : last order = Some "payment".
Proof. reflexivity. Qed.

Lemma order_head : head order = Some "connect".
Proof. reflexivity. Qed.

(** C1: from any state whose current step is one of the four ids, [goNext]
    adds the current step to the completed set and, unless the current step
    is the last id, moves to the id that follows it in [order]; at the last
    id the step is still recorded, the current step stays, and a second
    [goNext] changes nothing more. *)
Theorem goNext_spec (s : Home) :
  currentStep s ∈ order →
  completedSteps (goNext s) = completedSteps s ∪ {[currentStep s]} ∧
  (last order ≠ Some (currentStep s) →
     ∃ i : nat, order !! i = Some (currentStep s) ∧
                order !! S i = Some (currentStep (goNext s))) ∧
  (last order = Some (currentStep s) →
     currentStep (goNext s) = currentStep s ∧ goNext (goNext s) = goNext s) ∧
  publicKey (goNext s) = publicKey s ∧ refreshKey (goNext s) = refreshKey s.
Proof.
  destruct s as [pk rk c d]; simpl. intros Hc.
  step_cases Hc; autorewrite with wizard; simpl;
    (split; [done|]); (split; [|split; [|done]]); try discriminate.
  - by exists 0%nat.
  - by exists 1%nat.
  - by exists 2%nat.
  - done.
  - intros _. split; [done|]. autorewrite with wizard. f_equal. set_solver.
Qed.

Lemma goNext_spec_witness :
  completedSteps (goNext (mkHome "GABC" 0 "balance" {["connect"]}))
    = {["connect"]} ∪ {["balance"]} ∧
  currentStep (goNext (goNext (mkHome "GABC" 0 "balance" {["connect"]}))) = "payment".
Proof.
  split; [|reflexivity].
  apply (proj1 (goNext_spec (mkHome "GABC" 0 "balance" {["connect"]})
                  ltac:(simpl; apply elem_of_order; tauto))).
Defined.

(** C2: [goToStep target] changes nothing unless [target] is the current step
    or a completed step; when it is, the current step becomes [target] and
    the completed set (and everything else) is kept. *)
Theorem goToStep_spec (s : Home) (target : string) :
  (target = currentStep s ∨ target ∈ completedSteps s →
     goToStep target s = setCurrentStep target s ∧
     currentStep (goToStep target s) = target ∧
     completedSteps (goToStep target s) = completedSteps s) ∧
  (¬ (target = currentStep s ∨ target ∈ completedSteps s) →
     goToStep target s = s).
Proof.
  unfold goToStep. split; intros H; case_decide; try done; tauto.
Qed.

Lemma goToStep_spec_witness :
  currentStep (goToStep "connect" (mkHome "G" 0 "balance" {["connect"; "trustline"]}))
    = "connect" ∧
  goToStep "payment" (mkHome "G" 0 "balance" {["connect"; "trustline"]})
    = mkHome "G" 0 "balance" {["connect"; "trustline"]}.
Proof.
  split.
  - apply (proj1 (goToStep_spec (mkHome "G" 0 "balance" {["connect"; "trustline"]})
                    "connect")).
    right. simpl. set_solver.
  - apply (proj2 (goToStep_spec (mkHome "G" 0 "balance" {["connect"; "trustline"]})
                    "payment")).
    simpl. intros [H|H]; [discriminate | set_solver].
Defined.

Lemma wf_initial : wf initial.
Proof. split; [apply elem_of_order; tauto | set_solver]. Qed.

Lemma wf_goNext s : wf s → wf (goNext s).
Proof.
  destruct s as [pk rk c d]. intros [Hc Hd]; simpl in *.
  assert (∀ x, x ∈ d ∪ {[c]} → x ∈ order) by set_solver.
  step_cases Hc; autorewrite with wizard; (split; [apply elem_of_order; tauto | done]).
Qed.

Lemma wf_goPrev s : wf s → wf (goPrev s).
Proof.
  destruct s as [pk rk c d]. intros [Hc Hd]; simpl in *.
  step_cases Hc; autorewrite with wizard; (split; [apply elem_of_order; tauto | done]).
Qed.

Lemma wf_goToStep t s : wf s → wf (goToStep t s).
Proof.
  intros [Hc Hd]. unfold goToStep. case_decide as H; [|done].
  split; [|done]. simpl. destruct H as [H| ->]; auto.
Qed.

Lemma wf_resetFlow s : wf (resetFlow s).
Proof. split; [apply elem_of_order; simpl; tauto | set_solver]. Qed.

Lemma wf_handle e s : wf s → wf (handle e s).
Proof.
  destruct e; simpl;
    auto using wf_goNext, wf_goPrev, wf_goToStep, wf_resetFlow.
Qed.

Lemma reachable_wf s : reachable s → wf s.
Proof. induction 1; auto using wf_initial, wf_handle. Qed.

Lemma reachable_run es : reachable (run es initial).
Proof.
  unfold run. induction es as [|e es IH] using rev_ind; [constructor|].
  rewrite foldl_app. simpl. by constructor.
Qed.

Lemma reachable_advances n : reachable (advances n).
Proof. induction n; [constructor | apply (reach_handle Advance), IHn]. Qed.

(** One [goNext] never loses a completed step and never moves backwards. *)
Lemma goNext_step_monotone s :
  currentStep s ∈ order →
  completedSteps s ⊆ completedSteps (goNext s) ∧
  Js.indexOf order (currentStep s) <= Js.indexOf order (currentStep (goNext s)) ∧
  (last order = Some (currentStep s) → currentStep (goNext s) = currentStep s).
Proof.
  destruct s as [pk rk c d]; simpl. intros Hc.
  step_cases Hc; autorewrite with wizard; simpl;
    (split; [set_solver | split; [by vm_compute | done]]).
Qed.

(** C3: along any run of [goNext] from the initial state the completed set
    only grows and the position of the current step in [order] never
    decreases; once the last id is current it stays current. *)
Theorem advances_monotone (n m : nat) :
  (n ≤ m)%nat →
  completedSteps (advances n) ⊆ completedSteps (advances m) ∧
  Js.indexOf order (currentStep (advances n))
    <= Js.indexOf order (currentStep (advances m)) ∧
  (last order = Some (currentStep (advances n)) →
     currentStep (advances m) = currentStep (advances n)).
Proof.
  induction 1 as [|m Hle (Hsub & Hidx & Hlast)]; [by repeat split|].
  pose proof (reachable_wf _ (reachable_advances m)) as [Hc _].
  destruct (goNext_step_monotone _ Hc) as (Hsub' & Hidx' & Hlast').
  change (advances (S m)) with (goNext (advances m)).
  split; [set_solver|]. split; [lia|].
  intros Hn. specialize (Hlast Hn). rewrite <- Hlast. apply Hlast'. congruence.
Qed.

Lemma advances_monotone_witness :
  completedSteps (advances 1) ⊆ completedSteps (advances 5) ∧
  Js.indexOf order (currentStep (advances 1))
    <= Js.indexOf order (currentStep (advances 5)) ∧
  (last order = Some (currentStep (advances 1)) →
     currentStep (advances 5) = currentStep (advances 1)).
Proof. apply (advances_monotone 1 5). lia. Defined.

(** C4: [goPrev] never touches the completed set (nor the identity or the
    refresh counter); when the current step sits at position [i + 1] of
    [order] it becomes the id at position [i]; at the first id the call
    changes nothing at all. *)
Theorem goPrev_spec (s : Home) :
  completedSteps (goPrev s) = completedSteps s ∧
  publicKey (goPrev s) = publicKey s ∧
  refreshKey (goPrev s) = refreshKey s ∧
  (∀ i : nat, order !! S i = Some (currentStep s) →
     order !! i = Some (currentStep (goPrev s))) ∧
  (head order = Some (currentStep s) → goPrev s = s).
Proof.
  destruct s as [pk rk c d]; simpl.
  order_or_not c.
  - step_cases Hin; autorewrite with wizard; simpl; repeat split; try done;
      intros i Hi; do 4 (try destruct i as [|i]); done.
  - rewrite goPrev_stray by done. simpl. repeat split; try done.
    intros i Hi. destruct Hout. exact (list_elem_of_lookup_2 order (S i) c Hi).
Qed.

Lemma goPrev_spec_witness :
  order !! 1%nat
    = Some (currentStep (goPrev (mkHome "G" 3 "balance" {["connect"; "trustline"]}))) ∧
  goPrev (mkHome "G" 3 "connect" {["payment"]}) = mkHome "G" 3 "connect" {["payment"]}.
Proof.
  split.
  - apply (proj1 (proj2 (proj2 (proj2
             (goPrev_spec (mkHome "G" 3 "balance" {["connect"; "trustline"]})))))).
    reflexivity.
  - apply (proj2 (proj2 (proj2 (proj2
             (goPrev_spec (mkHome "G" 3 "connect" {["payment"]})))))).
    reflexivity.
Defined.

(** C5: whatever the state, [resetFlow] makes the first id current, empties
    the completed set and clears the public key. *)
Theorem resetFlow_spec (s : Home) :
  head order = Some (currentStep (resetFlow s)) ∧
  currentStep (resetFlow s) = "connect" ∧
  completedSteps (resetFlow s) = ∅ ∧
  publicKey (resetFlow s) = "" ∧
  resetFlow s = mkHome "" (refreshKey s) "connect" ∅.
Proof. by repeat split. Qed.

(** C7: at [connect], [canProceed] is false when the public key is the empty
    string and true when it is not; at [trustline], [balance] and [payment]
    it is always true. *)
Theorem canProceed_spec (s : Home) :
  (currentStep s = "connect" → publicKey s = "" → canProceed s = false) ∧
  (currentStep s = "connect" → publicKey s ≠ "" → canProceed s = true) ∧
  (currentStep s = "trustline" ∨ currentStep s = "balance" ∨ currentStep s = "payment" →
     canProceed s = true).
Proof.
  unfold canProceed. repeat split.
  - intros -> ->. reflexivity.
  - intros -> Hk. simpl. unfold Js.truthy.
    destruct (String.eqb_spec (publicKey s) ""); done.
  - intros [-> | [-> | ->]]; reflexivity.
Qed.

Lemma canProceed_spec_witness :
  canProceed initial = false ∧
  canProceed (handleWalletConnect "GBBD47IF" initial) = true ∧
  canProceed (goNext (handleWalletConnect "GBBD47IF" initial)) = true.
Proof.
  split; [|split].
  - apply (proj1 (canProceed_spec initial)); reflexivity.
  - apply (proj1 (proj2 (canProceed_spec (handleWalletConnect "GBBD47IF" initial))));
      [reflexivity | discriminate].
  - apply (proj2 (proj2 (canProceed_spec
                           (goNext (handleWalletConnect "GBBD47IF" initial))))).
    left. reflexivity.
Defined.

(** ** Progress shown by the stepper *)

Lemma isDone_step (s : Home) c t dsc o :
  Stepper.isDone (mkStep c t dsc o (getStepStatus s c))
  = bool_decide (c ∈ completedSteps s).
Proof.
  unfold Stepper.isDone, getStepStatus; simpl.
  destruct (decide (c ∈ completedSteps s)) as [Hc|Hc].
  - by rewrite (bool_decide_eq_true_2 _ Hc).
  - rewrite (bool_decide_eq_false_2 _ Hc). by case_decide.
Qed.

(** The steps displayed as done are the ids of [order] found in the set. *)
Lemma doneCount_steps (s : Home) :
  Stepper.doneCount (steps s)
  = length (filter (λ c, c ∈ completedSteps s) order).
Proof.
  unfold Stepper.doneCount, steps, order. simpl List.filter.
  rewrite !isDone_step, !filter_cons, filter_nil.
  repeat case_bool_decide; repeat case_decide; done.
Qed.

Lemma size_completed (d : gset StepId) :
  (∀ c, c ∈ d → c ∈ order) →
  size d = length (filter (λ c, c ∈ d) order).
Proof.
  intros Hd.
  assert (d = list_to_set (filter (λ c, c ∈ d) order)) as Heq.
  { apply set_eq. intros c.
    rewrite elem_of_list_to_set, list_elem_of_filter. naive_solver. }
  rewrite Heq at 1. apply size_list_to_set, NoDup_filter, order_NoDup.
Qed.

Lemma doneCount_wf (s : Home) :
  wf s → Stepper.doneCount (steps s) = size (completedSteps s).
Proof. intros [_ Hd]. by rewrite doneCount_steps, <- size_completed. Qed.

Lemma percentage_doneCount (s : Home) :
  (Stepper.percentage (steps s)
   == 100 * inject_Z (Z.of_nat (Stepper.doneCount (steps s))) / 4)%Q.
Proof.
  unfold Stepper.percentage.
  change (inject_Z (Z.of_nat (length (steps s)))) with 4%Q. field.
Qed.

Lemma round_proper (q q' : Q) : (q == q')%Q → Stepper.round q = Stepper.round q'.
Proof. intros H. unfold Stepper.round. by rewrite H. Qed.

Lemma round_quarters (k : Z) : Stepper.round (100 * inject_Z k / 4) = 25 * k.
Proof.
  unfold Stepper.round.
  assert ((100 * inject_Z k / 4 + (1 # 2)) == inject_Z (25 * k) + (1 # 2))%Q as ->.
  { rewrite inject_Z_mult. change (inject_Z 25) with 25%Q. field. }
  apply Z.le_antisymm.
  - apply Z.lt_succ_r. rewrite Zlt_Qlt.
    eapply Qle_lt_trans; [apply Qfloor_le|].
    rewrite <- Z.add_1_r, inject_Z_plus. apply Qplus_lt_r. reflexivity.
  - rewrite <- (Qfloor_Z (25 * k)) at 1. apply Qfloor_resp_le.
    rewrite <- (Qplus_0_r (inject_Z (25 * k))) at 1. apply Qplus_le_r. discriminate.
Qed.

(** C6: in every reachable state the completed set holds only ids of the
    sequence, the number of steps displayed as done equals its cardinality,
    and the percentage of the progress bar is exactly
    [100 * |completedSteps| / 4] (the rounded label shows the same value). *)
Theorem progress_exact (s : Home) :
  reachable s →
  completedSteps s ⊆ list_to_set order ∧
  Stepper.doneCount (steps s) = size (completedSteps s) ∧
  (Stepper.percentage (steps s)
   == 100 * inject_Z (Z.of_nat (size (completedSteps s))) / 4)%Q ∧
  Stepper.label (steps s) = 25 * Z.of_nat (size (completedSteps s)).
Proof.
  intros Hs. pose proof (reachable_wf s Hs) as Hwf.
  pose proof (doneCount_wf s Hwf) as Hcount.
  split; [|split; [done|split]].
  - intros c Hc. apply elem_of_list_to_set. by apply Hwf.
  - by rewrite percentage_doneCount, Hcount.
  - unfold Stepper.label.
    rewrite (round_proper _ _ (percentage_doneCount s)), Hcount.
    apply round_quarters.
Qed.

Lemma progress_exact_witness :
  Stepper.doneCount (steps (run [WalletConnected "GABC"; Advance; Advance; Retreat] initial))
  = size (completedSteps (run [WalletConnected "GABC"; Advance; Advance; Retreat] initial)).
Proof.
  apply (progress_exact (run [WalletConnected "GABC"; Advance; Advance; Retreat] initial)).
  apply reachable_run.
Defined.

(** ** Derived status *)

Lemma no_active_when_current_done (s : Home) :
  currentStep s ∈ completedSteps s → ∀ c, getStepStatus s c ≠ active.
Proof.
  intros Hcur c. unfold getStepStatus.
  repeat case_decide; try discriminate. congruence.
Qed.

(** C10: [done] takes priority over [active]. Whenever the current step is in
    the completed set its status is [done] and then no step at all is
    [active]; this happens in reachable states: after [goNext] at the last
    step, and after [goToStep] to a step completed earlier. *)
Theorem done_has_priority :
  (∀ s, currentStep s ∈ completedSteps s →
     getStepStatus s (currentStep s) = done ∧
     (∀ c, getStepStatus s c ≠ active) ∧
     Stepper.activeIndex (steps s) = -1) ∧
  (∀ s, last order = Some (currentStep s) →
     currentStep (goNext s) ∈ completedSteps (goNext s)) ∧
  (∀ s t, t ∈ completedSteps s →
     currentStep (goToStep t s) ∈ completedSteps (goToStep t s)) ∧
  (reachable (run [Advance; Advance; Advance; Advance] initial) ∧
   currentStep (run [Advance; Advance; Advance; Advance] initial) = "payment" ∧
   ∀ c, getStepStatus (run [Advance; Advance; Advance; Advance] initial) c ≠ active) ∧
  (reachable (run [Advance; JumpTo "connect"] initial) ∧
   currentStep (run [Advance; JumpTo "connect"] initial) = "connect" ∧
   ∀ c, getStepStatus (run [Advance; JumpTo "connect"] initial) c ≠ active).
Proof.
  assert (∀ s, last order = Some (currentStep s) →
            currentStep (goNext s) ∈ completedSteps (goNext s)) as Hlast.
  { intros [pk rk c d]; simpl. intros [= <-]. rewrite goNext_payment. set_solver. }
  assert (∀ s t, t ∈ completedSteps s →
            currentStep (goToStep t s) ∈ completedSteps (goToStep t s)) as Hjump.
  { intros s t Ht. unfold goToStep. case_decide as H; [done|]. tauto. }
  split; [|split; [done|split; [done|split]]].
  - intros s Hcur. split; [|split].
    + unfold getStepStatus. by case_decide.
    + by apply no_active_when_current_done.
    + pose proof (no_active_when_current_done s Hcur) as Hno.
      unfold Stepper.activeIndex, Js.findIndex, steps, Stepper.isActive; simpl.
      rewrite !bool_decide_eq_false_2 by apply Hno. reflexivity.
  - split; [apply reachable_run|]. split; [reflexivity|].
    apply no_active_when_current_done. apply Hlast. reflexivity.
  - split; [apply reachable_run|]. split; [reflexivity|].
    apply no_active_when_current_done.
    apply (Hjump (run [Advance] initial) "connect"). set_solver.
Qed.

Lemma done_has_priority_witness :
  getStepStatus (goNext (mkHome "G" 0 "payment" ∅)) "payment" = done.
Proof.
  apply (proj1 done_has_priority (goNext (mkHome "G" 0 "payment" ∅))).
  rewrite goNext_payment. simpl. set_solver.
Defined.

(** ** The walk through the wizard *)

(** Unfolding a run into nested handler calls on an explicit state. *)
Ltac walk :=
  cbv [run foldl handle connected handleWalletConnect setPublicKey initial
       publicKey refreshKey currentStep completedSteps];
  autorewrite with wizard.

Example scenario_identity :
  canProceed initial = false ∧ canProceed connected = true.
Proof. by split. Qed.

Example scenario_first_step :
  goNext connected = mkHome "GABC" 0 "trustline" {["connect"]}.
Proof. walk. f_equal. all: set_solver. Qed.

Example scenario_second_step :
  run [Advance; Advance] connected
  = mkHome "GABC" 0 "balance" {["connect"; "trustline"]} ∧
  isFlowComplete (run [Advance; Advance] connected) = false.
Proof.
  walk. split; [f_equal; try set_solver|].
  apply bool_decide_eq_false. set_solver.
Qed.

Example scenario_third_step :
  run [Advance; Advance; Advance] connected
  = mkHome "GABC" 0 "payment" {["connect"; "trustline"; "balance"]} ∧
  isFlowComplete (run [Advance; Advance; Advance] connected) = true.
Proof.
  walk. split; [f_equal; try set_solver|].
  apply bool_decide_eq_true. set_solver.
Qed.

Example scenario_last_step :
  run [Advance; Advance; Advance; Advance; Advance] connected
  = mkHome "GABC" 0 "payment" {["connect"; "trustline"; "balance"; "payment"]}.
Proof. walk. f_equal. all: set_solver. Qed.

Example scenario_pending_jump : goToStep "balance" initial = initial.
Proof.
  unfold goToStep. case_decide as H; [|done].
  destruct H as [H|H]; [set_solver | discriminate].
Qed.

Example scenario_reset :
  resetFlow (run [Advance; Advance; Retreat] connected) = initial.
Proof. reflexivity. Qed.

(** * Properties of the error handlers *)

Lemma declined_false (err : Err) :
  declined err = false →
  messageIncludes err "User declined" = false ∧
  messageIncludes err "User rejected" = false.
Proof. unfold declined. apply orb_false_elim. Qed.

Lemma trustline_declined (err : Err) :
  declined err = true →
  trustlineErrorMessage err = "❌ Rechazaste la transacción en Freighter".
Proof.
  unfold declined, trustlineErrorMessage. intros H.
  destruct (messageIncludes err "User declined"); [done|].
  simpl in H. by rewrite H.
Qed.

Lemma payment_declined (err : Err) :
  declined err = true →
  paymentErrorMessage err = "❌ Rechazaste la transacción".
Proof.
  unfold declined, paymentErrorMessage. intros H.
  destruct (messageIncludes err "User declined"); [done|].
  simpl in H. by rewrite H.
Qed.

Lemma trustline_known (err : Err) (d : Data) (code m : string) :
  declined err = false → responseData err = Some d → firstOperation d = Some code →
  (code, m) ∈ trustlineMessages → trustlineErrorMessage err = m.
Proof.
  intros [H1 H2]%declined_false Hd Hc Hin.
  unfold trustlineErrorMessage. rewrite H1, H2, Hd, Hc.
  unfold trustlineMessages in Hin.
  rewrite !elem_of_cons, elem_of_nil in Hin.
  destruct Hin as [[= -> ->]|[[= -> ->]|[[= -> ->]|[]]]]; reflexivity.
Qed.

Lemma or_else_truthy (c fallback : string) : c ≠ "" → or_else (Some c) fallback = c.
Proof.
  intros Hc. unfold or_else, Js.truthy.
  destruct (String.eqb_spec c ""); done.
Qed.

Lemma trustline_unknown (err : Err) (d : Data) (code : string) :
  declined err = false → responseData err = Some d → firstOperation d = Some code →
  code ∉ trustlineMessages.*1 → code ≠ "" →
  trustlineErrorMessage err = genericPrefix +:+ code.
Proof.
  intros [H1 H2]%declined_false Hd Hc Hout Hne.
  unfold trustlineErrorMessage. rewrite H1, H2, Hd, Hc.
  simpl in Hout. rewrite !not_elem_of_cons in Hout.
  destruct Hout as (? & ? & ? & _).
  repeat (case_decide; [congruence|]).
  by rewrite or_else_truthy.
Qed.

Lemma payment_known (err : Err) (rc : ResultCodes) (code m : string) :
  declined err = false → resultCodes err = Some rc → firstCode rc = Some code →
  (code, m) ∈ paymentMessages → paymentErrorMessage err = m.
Proof.
  intros [H1 H2]%declined_false Hd Hc Hin.
  unfold paymentErrorMessage. rewrite H1, H2, Hd, Hc.
  unfold paymentMessages in Hin.
  rewrite !elem_of_cons, elem_of_nil in Hin.
  decompose [or] Hin; try done; simplify_eq; reflexivity.
Qed.

Lemma payment_unknown (err : Err) (rc : ResultCodes) (code : string) :
  declined err = false → resultCodes err = Some rc → firstCode rc = Some code →
  code ∉ paymentMessages.*1 →
  paymentErrorMessage err = genericPrefix +:+ code.
Proof.
  intros [H1 H2]%declined_false Hd Hc Hout.
  unfold paymentErrorMessage. rewrite H1, H2, Hd, Hc.
  simpl in Hout. rewrite !not_elem_of_cons in Hout.
  destruct Hout as (? & ? & ? & ? & ? & ? & _).
  repeat (case_decide; [congruence|]).
  reflexivity.
Qed.

(** What the two handlers show when the first operation code is absent or
    empty: the trustline handler falls back to a word, the payment handler
    interpolates the value as it is. *)
Lemma trustline_no_code (err : Err) (d : Data) :
  declined err = false → responseData err = Some d →
  firstOperation d = None ∨ firstOperation d = Some "" →
  trustlineErrorMessage err = genericPrefix +:+ "Desconocido".
Proof.
  intros [H1 H2]%declined_false Hd Hc.
  unfold trustlineErrorMessage. rewrite H1, H2, Hd.
  destruct Hc as [-> | ->]; reflexivity.
Qed.

Lemma payment_no_code (err : Err) (rc : ResultCodes) :
  declined err = false → resultCodes err = Some rc → firstCode rc = None →
  paymentErrorMessage err = genericPrefix +:+ "undefined".
Proof.
  intros [H1 H2]%declined_false Hd Hc.
  unfold paymentErrorMessage. rewrite H1, H2, Hd, Hc. reflexivity.
Qed.


(** C8: in both [catch] blocks an error whose message contains
    ['User declined'] or ['User rejected'] gets the user-rejected message,
    which differs from every ledger message; for any other error that carries
    a first operation result code, each known code gets its fixed message and
    every other code gets the generic ledger message followed by the raw code
    (in [createTrustline] an empty code is shown as a fallback word, hence
    the side condition there). *)
Theorem error_messages (err : Err) :
  (declined err = true →
     trustlineErrorStatus err = mkStatus st_error ("❌ " +:+ trustlineRejected) ∧
     paymentErrorStatus err = mkStatus st_error ("❌ " +:+ paymentRejected)) ∧
  (declined err = false →
     (∀ d code, responseData err = Some d → firstOperation d = Some code →
        (∀ m, (code, m) ∈ trustlineMessages →
           trustlineErrorStatus err = mkStatus st_error ("❌ " +:+ m)) ∧
        (code ∉ trustlineMessages.*1 → code ≠ "" →
           trustlineErrorStatus err
           = mkStatus st_error ("❌ " +:+ genericPrefix +:+ code))) ∧
     (∀ rc code, resultCodes err = Some rc → firstCode rc = Some code →
        (∀ m, (code, m) ∈ paymentMessages →
           paymentErrorStatus err = mkStatus st_error ("❌ " +:+ m)) ∧
        (code ∉ paymentMessages.*1 →
           paymentErrorStatus err
           = mkStatus st_error ("❌ " +:+ genericPrefix +:+ code)))) ∧
  (∀ code m, (code, m) ∈ trustlineMessages →
     m ≠ trustlineRejected ∧ genericPrefix +:+ code ≠ trustlineRejected) ∧
  (∀ code m, (code, m) ∈ paymentMessages →
     m ≠ paymentRejected ∧ genericPrefix +:+ code ≠ paymentRejected).
Proof.
  split; [|split; [|split]].
  - intros H. unfold trustlineErrorStatus, paymentErrorStatus.
    by rewrite trustline_declined, payment_declined.
  - intros H. split.
    + intros d code Hd Hc. split.
      * intros m Hm. unfold trustlineErrorStatus.
        by rewrite (trustline_known err d code m).
      * intros Hout Hne. unfold trustlineErrorStatus.
        by rewrite (trustline_unknown err d code).
    + intros rc code Hrc Hc. split.
      * intros m Hm. unfold paymentErrorStatus.
        by rewrite (payment_known err rc code m).
      * intros Hout. unfold paymentErrorStatus.
        by rewrite (payment_unknown err rc code).
  - intros code m Hin. unfold trustlineMessages in Hin.
    rewrite !elem_of_cons, elem_of_nil in Hin.
    decompose [or] Hin; try done; simplify_eq; split; discriminate.
  - intros code m Hin. unfold paymentMessages in Hin.
    rewrite !elem_of_cons, elem_of_nil in Hin.
    decompose [or] Hin; try done; simplify_eq; split; discriminate.
Qed.

Lemma error_messages_witness :
  trustlineErrorStatus (newError "User declined access")
    = mkStatus st_error "❌ ❌ Rechazaste la transacción en Freighter" ∧
  trustlineErrorStatus
    (horizonError "Request failed with status code 400" ["op_low_reserve"])
    = mkStatus st_error "❌ 💰 Balance insuficiente. Necesitas al menos 0.5 XLM más." ∧
  paymentErrorStatus
    (horizonError "Request failed with status code 400" ["op_too_few_offers"])
    = mkStatus st_error "❌ 🌐 Error de Stellar: op_too_few_offers".
Proof.
  split; [|split].
  - apply (proj1 (error_messages (newError "User declined access"))).
    reflexivity.
  - pose (err := horizonError "Request failed with status code 400" ["op_low_reserve"]).
    refine (proj1 (proj1 (proj1 (proj2 (error_messages err)) _) _ "op_low_reserve" _ _) _ _);
      [reflexivity | reflexivity | reflexivity |].
    unfold trustlineMessages. apply elem_of_cons. by left.
  - pose (err := horizonError "Request failed with status code 400" ["op_too_few_offers"]).
    refine (proj2 (proj2 (proj1 (proj2 (error_messages err)) _) _ "op_too_few_offers" _ _) _);
      [reflexivity | reflexivity | reflexivity |].
    simpl. rewrite !not_elem_of_cons. repeat split; try discriminate.
    apply not_elem_of_nil.
Defined.

(** * Properties of the ledger actions *)

(** Unfolding the monad and the state cells, one step of symbolic
    execution. *)
Ltac exec :=
  cbv beta iota zeta delta
    [mbind M_bind mret M_ret try_catch finally throw throw_if await emit update
     CreateTrustline.run CreateTrustline.log CreateTrustline.log_error
     CreateTrustline.setLoading CreateTrustline.setStatus
     CreateTrustline.setTrustlineExists CreateTrustline.construct
     CreateTrustline.loading CreateTrustline.status CreateTrustline.trustlineExists
     PathPayment.run PathPayment.log PathPayment.log_error PathPayment.setLoading
     PathPayment.setStatus PathPayment.construct PathPayment.read
     PathPayment.loading PathPayment.status PathPayment.amount
     PathPayment.destination
     comp outputs snd fst app
     address address_error signedTxXdr sign_error hash negb].

(** [H] says that a console line occurs in a list of lines that all differ
    from it. *)
Ltac absent H :=
  repeat (apply elem_of_cons in H as [H|H]; [discriminate H|]);
  apply elem_of_nil in H; destruct H.

(** Case analysis on an answer; the runs that stop early never printed the
    line the hypothesis asks for. *)
Ltac branch x :=
  destruct x; exec; try (let H := fresh in intros H; absent H).

Ltac related :=
  lazymatch goal with |- Forall2 _ _ _ => idtac end;
  repeat (constructor; [first [left; reflexivity | right; split; reflexivity]|]);
  constructor.

Ltac occurs :=
  repeat first [apply list_elem_of_here | apply list_elem_of_further].

Ltac finish :=
  repeat split;
  first
    [ related
    | let e := fresh in let H := fresh in intros e H; absent H
    | discriminate
    | intros; occurs ].

(** [createTrustline]: once the ledger accepted the transaction, a failing
    [insert] changes one console line and nothing else. *)
Lemma createTrustline_insert_failure props ext c h dbError :
  let fail := CreateTrustline.run
    (CreateTrustline.createTrustline props
       (CreateTrustline.with_insert (Some dbError) ext)) c in
  let ok := CreateTrustline.run
    (CreateTrustline.createTrustline props
       (CreateTrustline.with_insert None ext)) c in
  CreateTrustline.submitted_log h ∈ outputs fail.2 →
  fail.1 = inr tt ∧ ok.1 = inr tt ∧
  comp fail.2 = CreateTrustline.mkState false (CreateTrustline.success props) true ∧
  comp ok.2 = comp fail.2 ∧
  Forall2 (CreateTrustline.same_but_insert dbError) (outputs ok.2) (outputs fail.2) ∧
  (∀ e, CreateTrustline.caught_log e ∉ outputs fail.2) ∧
  (CreateTrustline.onSuccess props = true → on_success ∈ outputs fail.2) ∧
  CreateTrustline.not_saved_log dbError ∈ outputs fail.2.
Proof.
  destruct ext as [ga cl cs la na bt st nt sub ins].
  unfold CreateTrustline.createTrustline, CreateTrustline.checkExistingTrustline,
    CreateTrustline.submitted_log, CreateTrustline.with_insert,
    CreateTrustline.caught_log, CreateTrustline.not_saved_log,
    CreateTrustline.same_but_insert, CreateTrustline.saved_log,
    CreateTrustline.success.
  cbn [CreateTrustline.getAddress CreateTrustline.check_loadAccount
       CreateTrustline.check_select CreateTrustline.loadAccount
       CreateTrustline.newAsset CreateTrustline.build_toXDR
       CreateTrustline.signTransaction CreateTrustline.newTransaction
       CreateTrustline.submitTransaction CreateTrustline.insert].
  destruct ga as [e|[pk err]]; exec; [intros H; absent H|].
  branch (truthy_opt err).
  branch (Js.truthy pk).
  (* checkExistingTrustline: four ways of not finding the trustline *)
  destruct cl as [e|account]; exec;
    [| destruct (existsb (CreateTrustline.holds_asset props) (balances account));
       exec; [intros H; absent H|];
       destruct cs as [data [error|]]; exec;
       [| destruct data as [[|row data]|]; exec; [|intros H; absent H|] ] ].
  all: branch la.
  all: branch na.
  all: branch bt.
  all: destruct st as [e'|[signed serr]]; exec; try (intros H; absent H).
  all: branch (truthy_opt serr).
  all: branch nt.
  all: destruct sub as [e'|[hh]]; exec; try (intros H; absent H).
  all: destruct (CreateTrustline.onSuccess props); exec.
  all: intros _; finish.
Qed.

(** [sendPathPayment]: the same, with the hash of the accepted transaction
    in the status. *)
Lemma sendPathPayment_insert_failure {Number : Type}
    (parseFloat : string → Number) (nonPositive : Number → bool)
    props ext c h dbError :
  let fail := PathPayment.run
    (PathPayment.sendPathPayment parseFloat nonPositive props
       (PathPayment.with_insert (Some dbError) ext)) c in
  let ok := PathPayment.run
    (PathPayment.sendPathPayment parseFloat nonPositive props
       (PathPayment.with_insert None ext)) c in
  PathPayment.submitted_log h ∈ outputs fail.2 →
  fail.1 = inr tt ∧ ok.1 = inr tt ∧
  comp fail.2
  = PathPayment.mkState (PathPayment.amount c) (PathPayment.destination c) false
      (PathPayment.success h) ∧
  comp ok.2 = comp fail.2 ∧
  Forall2 (PathPayment.same_but_insert dbError) (outputs ok.2) (outputs fail.2) ∧
  (∀ e, PathPayment.caught_log e ∉ outputs fail.2) ∧
  PathPayment.not_saved_log dbError ∈ outputs fail.2.
Proof.
  destruct ext as [ga la bt st nt sub ins]. destruct c as [amt dst ld stat].
  unfold PathPayment.sendPathPayment, PathPayment.submitted_log,
    PathPayment.with_insert, PathPayment.caught_log, PathPayment.not_saved_log,
    PathPayment.same_but_insert, PathPayment.saved_log, PathPayment.success.
  cbn [PathPayment.getAddress PathPayment.loadAccount PathPayment.build_toXDR
       PathPayment.signTransaction PathPayment.newTransaction
       PathPayment.submitTransaction PathPayment.insert].
  exec.
  branch (Js.truthy amt); cbn [orb].
  branch (nonPositive (parseFloat amt)).
  destruct ga as [e|[pk err]]; exec; [intros H; absent H|].
  branch (truthy_opt err).
  branch (Js.truthy pk).
  branch la.
  match goal with |- context [bt ?op] => branch (bt op) end.
  destruct st as [e'|[signed serr]]; exec; [intros H; absent H|].
  branch (truthy_opt serr).
  branch nt.
  destruct sub as [e'|[hh]]; exec; [intros H; absent H|].
  intros H.
  assert (h = hh) as ->.
  { repeat (apply elem_of_cons in H as [H|H];
            [first [discriminate H | by injection H] |]).
    apply elem_of_nil in H. destruct H. }
  clear H. finish.
Qed.

(** C9: in [createTrustline] and in [sendPathPayment], when the ledger has
    accepted the transaction and the database [insert] then fails, the run
    does not throw and never enters the [catch] block; the failure is written
    to the console, and the component ends in the success state (for the
    trustline: [trustlineExists] set and the [onSuccess] callback called),
    which is the state it ends in when the [insert] succeeds. The two runs
    emit the same outputs but for the one console line about the [insert]. *)
Theorem insert_failure_only_logged :
  (∀ props ext c h dbError,
     let fail := CreateTrustline.run
       (CreateTrustline.createTrustline props
          (CreateTrustline.with_insert (Some dbError) ext)) c in
     let ok := CreateTrustline.run
       (CreateTrustline.createTrustline props
          (CreateTrustline.with_insert None ext)) c in
     CreateTrustline.submitted_log h ∈ outputs fail.2 →
     fail.1 = inr tt ∧ ok.1 = inr tt ∧
     ¬ (∃ e, CreateTrustline.caught_log e ∈ outputs fail.2) ∧
     CreateTrustline.not_saved_log dbError ∈ outputs fail.2 ∧
     CreateTrustline.status (comp fail.2) = CreateTrustline.success props ∧
     CreateTrustline.trustlineExists (comp fail.2) = true ∧
     (CreateTrustline.onSuccess props = true → on_success ∈ outputs fail.2) ∧
     comp fail.2 = comp ok.2 ∧
     Forall2 (CreateTrustline.same_but_insert dbError)
       (outputs ok.2) (outputs fail.2)) ∧
  (∀ (Number : Type) (parseFloat : string → Number) (nonPositive : Number → bool)
     props ext c h dbError,
     let fail := PathPayment.run
       (PathPayment.sendPathPayment parseFloat nonPositive props
          (PathPayment.with_insert (Some dbError) ext)) c in
     let ok := PathPayment.run
       (PathPayment.sendPathPayment parseFloat nonPositive props
          (PathPayment.with_insert None ext)) c in
     PathPayment.submitted_log h ∈ outputs fail.2 →
     fail.1 = inr tt ∧ ok.1 = inr tt ∧
     ¬ (∃ e, PathPayment.caught_log e ∈ outputs fail.2) ∧
     PathPayment.not_saved_log dbError ∈ outputs fail.2 ∧
     PathPayment.status (comp fail.2) = PathPayment.success h ∧
     comp fail.2 = comp ok.2 ∧
     Forall2 (PathPayment.same_but_insert dbError)
       (outputs ok.2) (outputs fail.2)).
Proof.
  split.
  - intros props ext c h dbError.
    pose proof (createTrustline_insert_failure props ext c h dbError) as L.
    cbv zeta in L |- *.
    set (fail := CreateTrustline.run
           (CreateTrustline.createTrustline props
              (CreateTrustline.with_insert (Some dbError) ext)) c) in *.
    set (ok := CreateTrustline.run
           (CreateTrustline.createTrustline props
              (CreateTrustline.with_insert None ext)) c) in *.
    clearbody fail ok. intros Hsub.
    destruct (L Hsub) as (Hr & Hr' & Hc & Hc' & Hout & Hcatch & Hcb & Hlog).
    repeat split; try done.
    + intros [e He]. by apply (Hcatch e).
    + by rewrite Hc.
    + by rewrite Hc.
  - intros Number parseFloat nonPositive props ext c h dbError.
    pose proof (sendPathPayment_insert_failure parseFloat nonPositive
                  props ext c h dbError) as L.
    cbv zeta in L |- *.
    set (fail := PathPayment.run
           (PathPayment.sendPathPayment parseFloat nonPositive props
              (PathPayment.with_insert (Some dbError) ext)) c) in *.
    set (ok := PathPayment.run
           (PathPayment.sendPathPayment parseFloat nonPositive props
              (PathPayment.with_insert None ext)) c) in *.
    clearbody fail ok. intros Hsub.
    destruct (L Hsub) as (Hr & Hr' & Hc & Hc' & Hout & Hcatch & Hlog).
    repeat split; try done.
    + intros [e He]. by apply (Hcatch e).
    + by rewrite Hc.
Qed.

Lemma insert_failure_only_logged_witness :
  CreateTrustline.status
    (comp (CreateTrustline.run
             (CreateTrustline.createTrustline
                (CreateTrustline.mkProps USDC_TESTNET true)
                (CreateTrustline.with_insert
                   (Some (mkDbError "duplicate key value" "23505"))
                   CreateTrustline.accepted))
             CreateTrustline.initial).2)
  = mkStatus st_success
      "✅ Trustline creada exitosamente! Ahora puedes recibir USDC." ∧
  PathPayment.status
    (comp (PathPayment.run
             (PathPayment.sendPathPayment (λ _, 5) (λ x, (x <=? 0)%Z)
                (PathPayment.mkProps PathPayment.native
                   (PathPayment.mkSdkAsset "USDC" (Some (issuer USDC_TESTNET))))
                (PathPayment.with_insert
                   (Some (mkDbError "duplicate key value" "23505"))
                   PathPayment.accepted))
             (PathPayment.mkState "5" "" false (mkStatus st_empty ""))).2)
  = mkStatus st_success "✅ Path Payment exitoso! Hash: cafe0123...".
Proof.
  split.
  - refine (proj1 (proj2 (proj2 (proj2 (proj2
      (proj1 insert_failure_only_logged
         (CreateTrustline.mkProps USDC_TESTNET true) CreateTrustline.accepted
         CreateTrustline.initial "cafe0123456789"
         (mkDbError "duplicate key value" "23505") _)))))).
    vm_compute. occurs.
  - refine (proj1 (proj2 (proj2 (proj2 (proj2
      (proj2 insert_failure_only_logged Z (λ _, 5) (λ x, (x <=? 0)%Z)
         (PathPayment.mkProps PathPayment.native
            (PathPayment.mkSdkAsset "USDC" (Some (issuer USDC_TESTNET))))
         PathPayment.accepted
         (PathPayment.mkState "5" "" false (mkStatus st_empty ""))
         "cafe0123456789"
         (mkDbError "duplicate key value" "23505") _)))))).
    vm_compute. occurs.
Defined.

(** * Further properties of the step controller *)

(** X1: whatever the user does, the current step is one of the four ids, so
    exactly one of the four panels is rendered. *)
Theorem reachable_current_step (s : Home) :
  reachable s →
  currentStep s ∈ order ∧ 0 <= Js.indexOf order (currentStep s) < 4.
Proof.
  intros Hs. destruct (reachable_wf s Hs) as [Hc _]. split; [done|].
  step_cases Hc; by vm_compute.
Qed.

Lemma reachable_current_step_witness :
  currentStep (run [Advance; JumpTo "nowhere"; Retreat; Advance; Advance] initial)
  ∈ order.
Proof.
  apply (reachable_current_step
           (run [Advance; JumpTo "nowhere"; Retreat; Advance; Advance] initial)).
  apply reachable_run.
Defined.

(** X2: stepping forward and then back returns to the step one came from,
    which is now completed; stepping back and then forward returns to the
    same step as well. *)
Theorem goPrev_goNext (s : Home) :
  currentStep s ∈ order →
  (last order ≠ Some (currentStep s) →
     goPrev (goNext s)
     = setCompletedSteps (completedSteps s ∪ {[currentStep s]}) s) ∧
  (head order ≠ Some (currentStep s) →
     currentStep (goNext (goPrev s)) = currentStep s).
Proof.
  destruct s as [pk rk c d]; simpl. intros Hc.
  step_cases Hc; autorewrite with wizard; by split.
Qed.

Lemma goPrev_goNext_witness :
  goPrev (goNext (mkHome "G" 0 "trustline" {["connect"]}))
  = mkHome "G" 0 "trustline" ({["connect"]} ∪ {["trustline"]}).
Proof.
  refine (proj1 (goPrev_goNext (mkHome "G" 0 "trustline" {["connect"]}) _) _).
  - simpl. apply elem_of_order. tauto.
  - discriminate.
Defined.

Lemma canClick_step (s : Home) c t dsc o :
  canClick (mkStep c t dsc o (getStepStatus s c)) = true
  ↔ (c ∈ completedSteps s ∨ c = currentStep s).
Proof.
  unfold canClick, Stepper.isDone, Stepper.isActive, getStepStatus; simpl.
  destruct (decide (c ∈ completedSteps s)) as [Hin|Hout]; [by split; [left|]|].
  destruct (decide (currentStep s = c)) as [Heq|Hne]; [by split; [right|]|].
  split; [done|]. intros [?|?]; congruence.
Qed.

Lemma canClick_status (s : Home) (st : Step) :
  st ∈ steps s →
  (canClick st = true ↔ (id st ∈ completedSteps s ∨ id st = currentStep s)) ∧
  status st = getStepStatus s (id st).
Proof.
  unfold steps. rewrite !elem_of_cons, elem_of_nil.
  intros [-> | [-> | [-> | [-> | []]]]]; (split; [apply canClick_step | done]).
Qed.

(** X3: the side bar and [goToStep] agree. A step of the side bar can be
    clicked exactly when [goToStep] accepts its id; clicking it then makes
    it current and changes nothing else; a step that cannot be clicked is
    pending, and [goToStep] would refuse it as well. *)
Theorem clickStep_spec (s : Home) (st : Step) :
  st ∈ steps s →
  (canClick st = true → clickStep st s = setCurrentStep (id st) s) ∧
  (canClick st = false →
     clickStep st s = s ∧ status st = pending ∧ goToStep (id st) s = s).
Proof.
  intros Hst. destruct (canClick_status s st Hst) as [Hiff Hstatus].
  unfold clickStep. split; intros Hc; rewrite Hc.
  - apply Hiff in Hc. unfold goToStep. by case_decide.
  - assert (¬ (id st ∈ completedSteps s ∨ id st = currentStep s)) as Hno.
    { intros H. apply Hiff in H. congruence. }
    split; [done|]. split.
    + rewrite Hstatus. unfold getStepStatus.
      repeat case_decide; try done; destruct Hno; auto.
    + unfold goToStep. by case_decide.
Qed.

Lemma clickStep_spec_witness :
  clickStep (mkStep "connect" "Conectar Wallet"
               "Conecta tu wallet Freighter para comenzar" false done)
    (mkHome "G" 0 "balance" {["connect"; "trustline"]})
  = mkHome "G" 0 "connect" {["connect"; "trustline"]}.
Proof.
  refine (proj1 (clickStep_spec (mkHome "G" 0 "balance" {["connect"; "trustline"]})
                   (mkStep "connect" "Conectar Wallet"
                      "Conecta tu wallet Freighter para comenzar" false done) _) _).
  - unfold steps. apply elem_of_cons. left. reflexivity.
  - reflexivity.
Defined.

Lemma handle_completed_superset (e : Event) (s : Home) :
  isReset e = false → completedSteps s ⊆ completedSteps (handle e s).
Proof.
  destruct e; try done; intros _; simpl.
  - unfold goNext. case_decide; simpl; set_solver.
  - unfold goPrev. by case_decide.
  - unfold goToStep. by case_decide.
Qed.

(** X4: only [resetFlow] forgets a completed step. Along any sequence of
    the other events the completed set never shrinks, so the notice that the
    basic flow is complete, once earned, stays. *)
Theorem completed_never_shrinks (es : list Event) (s : Home) :
  forallb (λ e, negb (isReset e)) es = true →
  completedSteps s ⊆ completedSteps (run es s) ∧
  (isFlowComplete s = true → isFlowComplete (run es s) = true).
Proof.
  intros Hes.
  assert (completedSteps s ⊆ completedSteps (run es s)) as Hsub.
  { revert s. induction es as [|e es IH]; intros s; [done|].
    simpl in Hes. apply andb_prop in Hes as [He Hes].
    apply negb_true_iff in He.
    etrans; [apply (handle_completed_superset e s He)|]. by apply IH. }
  split; [done|]. unfold isFlowComplete.
  rewrite !bool_decide_eq_true. set_solver.
Qed.

Lemma completed_never_shrinks_witness :
  completedSteps (advances 3)
  ⊆ completedSteps (run [Retreat; JumpTo "connect"; Advance; TrustlineCreated]
                      (advances 3)).
Proof.
  apply (completed_never_shrinks
           [Retreat; JumpTo "connect"; Advance; TrustlineCreated] (advances 3)).
  reflexivity.
Defined.


(** X6: after [resetFlow] the wizard is locked at the first step: advancing
    is refused until a wallet answers again, the first step is active and
    every other id is pending, and no [goToStep] leaves the first step. *)
Theorem resetFlow_locks (s : Home) (t : string) :
  canProceed (resetFlow s) = false ∧
  getStepStatus (resetFlow s) "connect" = active ∧
  (t ≠ "connect" → getStepStatus (resetFlow s) t = pending) ∧
  currentStep (goToStep t (resetFlow s)) = "connect".
Proof.
  split; [done|]. split; [done|]. split.
  - intros Ht. unfold getStepStatus. simpl.
    rewrite decide_False by set_solver. by rewrite decide_False.
  - unfold goToStep. case_decide as H; [|done]. simpl in *.
    destruct H as [H|H]; [set_solver|done].
Qed.

Lemma goNext_completed_superset (s : Home) :
  completedSteps s ⊆ completedSteps (goNext s).
Proof. apply (handle_completed_superset Advance). reflexivity. Qed.

(** X7: along the straight walk through the wizard, the basic flow counts
    as complete from the third click on "Continuar" onwards, and not
    before; the optional fourth step plays no part. *)
Theorem isFlowComplete_advances (n : nat) :
  isFlowComplete (advances n) = true ↔ (3 ≤ n)%nat.
Proof.
  unfold isFlowComplete. rewrite bool_decide_eq_true. split.
  - intros Hin. destruct n as [|[|[|n]]]; [exfalso..|lia];
      revert Hin; unfold advances; simpl; autorewrite with wizard;
      simpl; set_solver.
  - intros Hn. induction Hn as [|n Hn IH].
    + unfold advances. simpl. autorewrite with wizard. simpl. set_solver.
    + change (advances (S n)) with (goNext (advances n)).
      by apply goNext_completed_superset.
Qed.

Lemma isFlowComplete_advances_witness : isFlowComplete (advances 7) = true.
Proof. apply isFlowComplete_advances. lia. Defined.

Lemma resetFlow_locks_witness :
  getStepStatus (resetFlow (advances 4)) "payment" = pending.
Proof.
  apply (proj1 (proj2 (proj2 (resetFlow_locks (advances 4) "payment")))).
  discriminate.
Defined.

(** * Properties of the side bar *)

Lemma findIndex_from_spec {A} (p : A → bool) (l : list A) (k : Z) :
  (Js.findIndex_from p l k = -1 ∧ Forall (λ x, p x = false) l) ∨
  (∃ (i : nat) x, Js.findIndex_from p l k = k + Z.of_nat i ∧
                  l !! i = Some x ∧ p x = true).
Proof.
  revert k. induction l as [|y l IH]; intros k; simpl; [by left|].
  destruct (p y) eqn:Hy.
  - right. exists 0%nat, y. split; [lia|done].
  - destruct (IH (k + 1)) as [[-> Hall] | (i & x & -> & Hi & Hx)].
    + left. split; [done|]. by constructor.
    + right. exists (S i), x. split; [lia|done].
Qed.

(** The step found by [findIndex] is an active one. *)
Lemma activeIndex_active (steps : list Step) (st : Step) :
  Js.get steps (Stepper.activeIndex steps) = Some st → status st = active.
Proof.
  unfold Stepper.activeIndex, Js.findIndex, Js.get.
  destruct (findIndex_from_spec Stepper.isActive steps 0)
    as [[-> _] | (i & x & -> & Hi & Hx)].
  - by case_decide.
  - case_decide; [|lia]. rewrite Z.add_0_l, Nat2Z.id, Hi. intros [= <-].
    by apply bool_decide_eq_true in Hx.
Qed.

(** On a non-empty list the footer is the "Paso" line: the branch that
    would announce the end asks an active step to be done. *)
Lemma footer_paso (steps : list Step) :
  steps ≠ [] →
  footer steps
  = Some ("Paso " +:+ pretty (Stepper.activeIndex steps + 1) +:+ " de "
          +:+ pretty (length steps)).
Proof.
  intros Hne. unfold footer. case_decide as Hlast; [|done].
  destruct (Js.get steps (Stepper.activeIndex steps)) as [st|] eqn:Hget.
  - apply activeIndex_active in Hget. unfold Stepper.isDone.
    by rewrite Hget, bool_decide_eq_false_2.
  - exfalso. unfold Js.get in Hget. rewrite Hlast in Hget.
    destruct steps as [|st steps]; [done|]. simpl length in Hget.
    case_decide; [|lia]. apply lookup_ge_None in Hget. simpl in Hget. lia.
Qed.

(** X8: the footer never announces the end of the flow. The announcement
    asks for the active step to be done at the same time, and a step has
    one status; whatever list of steps is shown, the footer is a "Paso"
    line, and the render fails only on the empty list. *)
Theorem footer_never_completed (steps : list Step) :
  footer steps ≠ Some "¡Flujo completado!" ∧
  (footer steps = None ↔ steps = []) ∧
  (steps ≠ [] →
     footer steps
     = Some ("Paso " +:+ pretty (Stepper.activeIndex steps + 1) +:+ " de "
             +:+ pretty (length steps))).
Proof.
  destruct steps as [|st steps].
  - repeat split; try done.
  - rewrite footer_paso by done. repeat split; try done.
Qed.

Lemma footer_never_completed_witness :
  footer (steps (advances 2)) = Some "Paso 3 de 4".
Proof.
  refine (proj2 (proj2 (footer_never_completed (steps (advances 2)))) _).
  discriminate.
Defined.

(** X9: once the current step is itself completed (after the last
    "Continuar", or after a click on a completed step) no step is
    active, [findIndex] answers [-1], and the footer reads "Paso 0 de 4". *)
Theorem footer_without_active (s : Home) :
  currentStep s ∈ completedSteps s →
  Stepper.activeIndex (steps s) = -1 ∧ footer (steps s) = Some "Paso 0 de 4".
Proof.
  intros Hcur.
  assert (Stepper.activeIndex (steps s) = -1) as Hidx.
  { pose proof (no_active_when_current_done s Hcur) as Hno.
    unfold Stepper.activeIndex, Js.findIndex, steps, Stepper.isActive; simpl.
    by rewrite !bool_decide_eq_false_2 by apply Hno. }
  split; [done|]. rewrite footer_paso by done. by rewrite Hidx.
Qed.

Lemma footer_without_active_witness :
  footer (steps (advances 4)) = Some "Paso 0 de 4".
Proof.
  apply (footer_without_active (advances 4)).
  unfold advances. simpl. autorewrite with wizard. simpl. set_solver.
Defined.

(** * Properties of the wallet view *)

Lemma substring_length (s : string) (n m : nat) :
  (n + m ≤ String.length s)%nat →
  String.length (String.substring n m s) = m.
Proof.
  revert n m. induction s as [|a s IH]; intros n m Hle; simpl in Hle.
  - assert (n = 0 ∧ m = 0)%nat as [-> ->] by lia. reflexivity.
  - destruct n as [|n]; simpl.
    + destruct m as [|m]; [done|]. simpl. f_equal. apply IH. simpl. lia.
    + apply IH. lia.
Qed.

Lemma substring_all (s : string) (m : nat) :
  (String.length s ≤ m)%nat → String.substring 0 m s = s.
Proof.
  revert m. induction s as [|a s IH]; intros m Hle; simpl in Hle.
  - by destruct m.
  - destruct m as [|m]; [lia|]. simpl. f_equal. apply IH. lia.
Qed.

Lemma substring_split (s : string) (n : nat) :
  (n ≤ String.length s)%nat →
  s = String.substring 0 n s +:+ String.substring n (String.length s - n) s.
Proof.
  revert n. induction s as [|a s IH]; intros n Hle; simpl in Hle.
  - by assert (n = 0)%nat as -> by lia.
  - destruct n as [|n].
    + rewrite Nat.sub_0_r, (substring_all (String a s) (String.length (String a s))) by lia.
      reflexivity.

    + simpl. change (String a ?x +:+ ?y) with (String a (x +:+ y)).
      f_equal. apply IH. lia.
Qed.

Lemma append_length (a b : string) :
  String.length (a +:+ b) = (String.length a + String.length b)%nat.
Proof. induction a as [|c a IH]; simpl; [done|]. by rewrite IH. Qed.

Lemma truthy_nonempty (s : string) : Js.truthy s = true ↔ s ≠ "".
Proof.
  unfold Js.truthy. destruct (String.eqb_spec s ""); split; try done.
Qed.

(** X10: [formatAddress] shows nothing for the empty key; a key of at
    least four characters is shown as its first four characters, three dots
    and its last four characters (eleven characters in all); a shorter,
    non-empty key is shown whole on both sides of the dots. *)
Theorem formatAddress_spec (a : string) :
  (a = "" → WalletConnect.formatAddress a = "") ∧
  ((4 ≤ String.length a)%nat →
     ∃ h r r' t,
       a = h +:+ r ∧ a = r' +:+ t ∧
       String.length h = 4%nat ∧ String.length t = 4%nat ∧
       WalletConnect.formatAddress a = h +:+ "..." +:+ t ∧
       String.length (WalletConnect.formatAddress a) = 11%nat) ∧
  (a ≠ "" → (String.length a < 4)%nat →
     WalletConnect.formatAddress a = a +:+ "..." +:+ a).
Proof.
  split; [by intros ->|]. split.
  - intros Hlen.
    assert (Js.truthy a = true) as Ht.
    { apply truthy_nonempty. intros ->. simpl in Hlen. lia. }
    unfold WalletConnect.formatAddress, WalletConnect.slice_last, take_chars.
    rewrite Ht. simpl negb. cbv iota.
    exists (String.substring 0 4 a),
           (String.substring 4 (String.length a - 4) a),
           (String.substring 0 (String.length a - 4) a),
           (String.substring (String.length a - 4) 4 a).
    assert (String.length (String.substring 0 4 a) = 4%nat) as Hh
      by (apply substring_length; lia).
    assert (String.length (String.substring (String.length a - 4) 4 a) = 4%nat)
      as Htl by (apply substring_length; lia).
    split; [by apply substring_split|]. split.
    { rewrite (substring_split a (String.length a - 4)) at 1 by lia.
      do 2 f_equal. lia. }
    split; [done|]. split; [done|]. split; [done|].
    rewrite !append_length, Hh, Htl. reflexivity.
  - intros Hne Hlen. apply truthy_nonempty in Hne.
    unfold WalletConnect.formatAddress, WalletConnect.slice_last, take_chars.
    rewrite Hne. simpl negb. cbv iota.
    replace (String.length a - 4)%nat with 0%nat by lia.
    by rewrite substring_all by lia.
Qed.

Lemma formatAddress_spec_witness :
  String.length
    (WalletConnect.formatAddress
       "GBBD47IF6LWK7P7MDEVSCWR7DPUWV3NY3DTQEVFL4NAT4AQH3ZLLFLA5") = 11%nat ∧
  WalletConnect.formatAddress "GA" = "GA...GA".
Proof.
  split.
  - destruct (proj1 (proj2 (formatAddress_spec
        "GBBD47IF6LWK7P7MDEVSCWR7DPUWV3NY3DTQEVFL4NAT4AQH3ZLLFLA5")))
      as (h & r & r' & t & _ & _ & _ & _ & _ & Hlen); [simpl; lia | exact Hlen].
  - apply (proj2 (proj2 (formatAddress_spec "GA"))); [discriminate | simpl; lia].
Defined.

(** Symbolic execution of the wallet view and of the balance view. *)
Ltac exec_view :=
  cbv beta iota zeta delta
    [mbind M_bind mret M_ret try_catch finally throw throw_if await emit update
     WalletConnect.run WalletConnect.setPublicKey WalletConnect.setLoading
     WalletConnect.setError WalletConnect.notify
     WalletConnect.publicKey WalletConnect.loading WalletConnect.error
     WalletConnect.child WalletConnect.parent
     AssetBalance.run AssetBalance.setBalance AssetBalance.setLoading
     AssetBalance.setError AssetBalance.balance AssetBalance.loading
     AssetBalance.error
     comp outputs snd fst app address address_error negb andb].

(** X11: the connection check made when the wallet view mounts is silent:
    it never throws and never touches the error shown; it ends with the
    spinner off; and either it leaves the key and the parent alone, or it
    stores a non-empty key and hands that same key to the parent. *)
Theorem checkConnection_silent {P : Type} (onConnect : string → P → P)
    (ext : WalletConnect.Answers) (c : WalletConnect.Scene P) :
  let r := WalletConnect.run (WalletConnect.checkConnection onConnect ext) c in
  let child' := WalletConnect.child (comp r.2) in
  let parent' := WalletConnect.parent (comp r.2) in
  r.1 = inr tt ∧
  WalletConnect.loading child' = false ∧
  WalletConnect.error child' = WalletConnect.error (WalletConnect.child c) ∧
  ((WalletConnect.publicKey child'
      = WalletConnect.publicKey (WalletConnect.child c) ∧
    parent' = WalletConnect.parent c) ∨
   (WalletConnect.publicKey child' ≠ "" ∧
    parent' = onConnect (WalletConnect.publicKey child') (WalletConnect.parent c))).
Proof.
  destruct ext as [ic ga ra]. destruct c as [[pk ld er] p].
  unfold WalletConnect.checkConnection.
  cbn [WalletConnect.isConnected WalletConnect.getAddress].
  destruct ic as [e|[|]]; exec_view; [by repeat split; try left| |by repeat split; try left].
  destruct ga as [e|[k err]]; exec_view; [by repeat split; try left|].
  destruct (truthy_opt err); exec_view; [by repeat split; try left|].
  destruct (Js.truthy k) eqn:Hk; exec_view; [|by repeat split; try left].
  repeat split. right. split; [|done]. by apply truthy_nonempty.
Qed.

(** The message shown for a failed connection. *)
Lemma connectWallet_failed {P : Type} (onConnect : string → P → P)
    (typeError : Err) (ext : WalletConnect.Answers) (c : WalletConnect.Scene P)
    (e : Err) (m : string) :
  (WalletConnect.requestAccess ext = inl e ∨
   ∃ r, WalletConnect.requestAccess ext = inr r ∧
        truthy_opt (address_error r) = true ∧
        e = newError (interpolate (address_error r))) →
  message e = Some m →
  WalletConnect.run (WalletConnect.connectWallet onConnect typeError ext) c
  = (inr tt,
     mkWorld
       (WalletConnect.mkScene
          (WalletConnect.mkState
             (WalletConnect.publicKey (WalletConnect.child c)) false
             (Some (if Js.includes m "Freighter" || Js.includes m "extension"
                    then "Freighter Wallet no está instalada" else m)))
          (WalletConnect.parent c))
       [console_error [a_str "Error connecting wallet:"; a_err e]]).
Proof.
  destruct ext as [ic ga ra]. destruct c as [[pk ld er] p].
  unfold WalletConnect.connectWallet. cbn [WalletConnect.requestAccess].
  intros [-> | ([k err] & -> & Hr & ->)] Hm; simpl in *; exec_view.
  - rewrite Hm. by destruct (Js.includes m "Freighter" || Js.includes m "extension").
  - rewrite Hr. exec_view. cbn [message newError]. exec_view. injection Hm as <-.
    by destruct (Js.includes _ "Freighter" || Js.includes _ "extension").
Qed.

(** X12: [connectWallet]. When the bridge grants access, the key it
    answered is stored and handed to the parent, no error is shown and
    nothing is written to the console (the key is not checked: an empty one
    is passed on as well). When the bridge answers an error, or rejects with
    a value that has a message, the key and the parent stay as they were and
    the error shown is the message, or the fixed text about the missing
    wallet when the message mentions 'Freighter' or 'extension'. When the
    rejection has no message, computing the text throws in the [catch]
    block: the run throws, with the spinner off and no error shown. *)
Theorem connectWallet_spec {P : Type} (onConnect : string → P → P)
    (typeError : Err) (ext : WalletConnect.Answers) (c : WalletConnect.Scene P) :
  let run := WalletConnect.run
               (WalletConnect.connectWallet onConnect typeError ext) c in
  let pk := WalletConnect.publicKey (WalletConnect.child c) in
  (∀ r, WalletConnect.requestAccess ext = inr r →
        truthy_opt (address_error r) = false →
        run = (inr tt,
               mkWorld (WalletConnect.mkScene
                          (WalletConnect.mkState (address r) false None)
                          (onConnect (address r) (WalletConnect.parent c)))
                 [])) ∧
  (∀ e m,
     (WalletConnect.requestAccess ext = inl e ∨
      ∃ r, WalletConnect.requestAccess ext = inr r ∧
           truthy_opt (address_error r) = true ∧
           e = newError (interpolate (address_error r))) →
     message e = Some m →
     run.1 = inr tt ∧
     comp run.2
     = WalletConnect.mkScene
         (WalletConnect.mkState pk false
            (Some (if Js.includes m "Freighter" || Js.includes m "extension"
                   then "Freighter Wallet no está instalada" else m)))
         (WalletConnect.parent c)) ∧
  (∀ e, WalletConnect.requestAccess ext = inl e → message e = None →
        run = (inl typeError,
               mkWorld (WalletConnect.mkScene
                          (WalletConnect.mkState pk false None)
                          (WalletConnect.parent c))
                 [])).
Proof.
  cbv zeta. split; [|split].
  - intros [k err] Hra Hr. destruct ext as [ic ga ra]. destruct c as [[pk ld er] p].
    unfold WalletConnect.connectWallet. cbn [WalletConnect.requestAccess] in *.
    subst ra. simpl in Hr. exec_view. rewrite Hr. by exec_view.
  - intros e m He Hm.
    by rewrite (connectWallet_failed onConnect typeError ext c e m He Hm).
  - intros e Hra Hm. destruct ext as [ic ga ra]. destruct c as [[pk ld er] p].
    unfold WalletConnect.connectWallet. cbn [WalletConnect.requestAccess] in *.
    subst ra. exec_view. rewrite Hm. by exec_view.
Qed.

Lemma connectWallet_spec_witness :
  (WalletConnect.run
     (WalletConnect.connectWallet handleWalletConnect (newError "TypeError")
        (WalletConnect.mkAnswers (inr true) (inr (mkAddressResult "" None))
           (inr (mkAddressResult "" (Some "The user rejected this request.")))))
     (WalletConnect.mkScene WalletConnect.initial initial)).1 = inr tt.
Proof.
  refine (proj1 (proj1 (proj2 (connectWallet_spec handleWalletConnect
    (newError "TypeError")
    (WalletConnect.mkAnswers (inr true) (inr (mkAddressResult "" None))
       (inr (mkAddressResult "" (Some "The user rejected this request."))))
    (WalletConnect.mkScene WalletConnect.initial initial)))
    (newError "The user rejected this request.")
    "The user rejected this request." _ _)).
  - right. eexists. split; [reflexivity|]. split; reflexivity.
  - reflexivity.
Defined.

(** X13: the wallet view and the wizard together. At the first step, a
    granted access with a non-empty key opens the way ([canProceed]); a
    granted access with an empty key, or a failed one, leaves it closed;
    and the view never moves the wizard or touches its completed steps. *)
Theorem connectWallet_canProceed (typeError : Err) (ext : WalletConnect.Answers)
    (w : WalletConnect.State) (s : Home) :
  let run := WalletConnect.run
               (WalletConnect.connectWallet handleWalletConnect typeError ext)
               (WalletConnect.mkScene w s) in
  let s' := WalletConnect.parent (comp run.2) in
  currentStep s' = currentStep s ∧
  completedSteps s' = completedSteps s ∧
  (currentStep s = "connect" →
     (∀ r, WalletConnect.requestAccess ext = inr r →
           truthy_opt (address_error r) = false →
           canProceed s' = Js.truthy (address r)) ∧
     ((∀ r, WalletConnect.requestAccess ext = inr r →
            truthy_opt (address_error r) = true) →
      canProceed s' = canProceed s)).
Proof.
  destruct ext as [ic ga ra]. destruct w as [pk ld er].
  unfold WalletConnect.connectWallet. cbn [WalletConnect.requestAccess].
  destruct ra as [e|[k err]]; exec_view.
  - destruct (message e) as [m|]; exec_view; [|by repeat split].
    destruct (Js.includes m "Freighter" || Js.includes m "extension");
      exec_view; by repeat split.
  - destruct (truthy_opt err) eqn:Herr; exec_view.
    + cbn [message newError]. exec_view.
      destruct (Js.includes _ "Freighter" || Js.includes _ "extension");
        exec_view; repeat split; try done.
      all: intros r [= <-] Hf; simpl in Hf; congruence.
    + repeat split; try done.
      * intros r [= <-] _. unfold canProceed. simpl. by rewrite decide_True.
      * intros Hall. specialize (Hall _ eq_refl). simpl in Hall. congruence.
Qed.

Lemma connectWallet_canProceed_witness :
  canProceed
    (WalletConnect.parent
       (comp (WalletConnect.run
                (WalletConnect.connectWallet handleWalletConnect
                   (newError "TypeError")
                   (WalletConnect.mkAnswers (inr false) (inl (newError "x"))
                      (inr (mkAddressResult "GABC" None))))
                (WalletConnect.mkScene WalletConnect.initial initial)).2))
  = true.
Proof.
  refine (proj1 (proj2 (proj2 (connectWallet_canProceed (newError "TypeError")
    (WalletConnect.mkAnswers (inr false) (inl (newError "x"))
       (inr (mkAddressResult "GABC" None)))
    WalletConnect.initial initial)) eq_refl) (mkAddressResult "GABC" None) eq_refl eq_refl).
Defined.

(** * Properties of the balance view *)

(** X14: without a public key [fetchBalance] asks nobody: whatever the
    ledger would answer, the only effect is the request to connect the
    wallet; the balance shown, the spinner and the console are untouched. *)
Theorem fetchBalance_without_key (props : AssetBalance.Props)
    (answer : AssetBalance.Rejection + Account) (c : AssetBalance.State) :
  AssetBalance.publicKey props = "" →
  AssetBalance.run (AssetBalance.fetchBalance props answer) c
  = (inr tt,
     mkWorld (AssetBalance.mkState (AssetBalance.balance c)
                (AssetBalance.loading c) (Some "Conecta tu wallet primero"))
       []).
Proof.
  intros Hk. unfold AssetBalance.fetchBalance. rewrite Hk. by exec_view.
Qed.

Lemma fetchBalance_without_key_witness :
  AssetBalance.run
    (AssetBalance.fetchBalance (AssetBalance.mkProps "" USDC_TESTNET)
       (inr (mkAccount "1" [])))
    AssetBalance.initial
  = (inr tt,
     mkWorld (AssetBalance.mkState None false (Some "Conecta tu wallet primero")) []).
Proof.
  apply (fetchBalance_without_key (AssetBalance.mkProps "" USDC_TESTNET)).
  reflexivity.
Defined.

Lemma find_first {A} (p : A → bool) (l1 l2 : list A) (x : A) :
  Forall (λ y, p y = false) l1 → p x = true →
  List.find p (l1 ++ x :: l2)%list = Some x.
Proof.
  intros Hl1 Hx. induction Hl1 as [|y l1 Hy _ IH]; simpl.
  - by rewrite Hx.
  - by rewrite Hy.
Qed.

Lemma find_none {A} (p : A → bool) (l : list A) :
  Forall (λ y, p y = false) l → List.find p l = None.
Proof. induction 1 as [|y l Hy _ IH]; simpl; [done|]. by rewrite Hy. Qed.

(** X15: with a key and an answer of the ledger, [fetchBalance] shows the
    balance of the first entry whose code and issuer are both those of the
    asset, and "0" when there is none; entries with the right code from
    another issuer, and the native entry, never count. The error is cleared
    and the spinner is off. *)
Theorem fetchBalance_found (props : AssetBalance.Props) (account : Account)
    (c : AssetBalance.State) :
  AssetBalance.publicKey props ≠ "" →
  (∀ l1 b l2,
     balances account = (l1 ++ b :: l2)%list →
     Forall (λ y, asset_code y ≠ Some (code (AssetBalance.asset props)) ∨
                  asset_issuer y ≠ Some (issuer (AssetBalance.asset props))) l1 →
     asset_code b = Some (code (AssetBalance.asset props)) →
     asset_issuer b = Some (issuer (AssetBalance.asset props)) →
     AssetBalance.run (AssetBalance.fetchBalance props (inr account)) c
     = (inr tt,
        mkWorld (AssetBalance.mkState (Some (balance b)) false None) [])) ∧
  (Forall (λ y, asset_code y ≠ Some (code (AssetBalance.asset props)) ∨
                asset_issuer y ≠ Some (issuer (AssetBalance.asset props)))
     (balances account) →
   AssetBalance.run (AssetBalance.fetchBalance props (inr account)) c
   = (inr tt, mkWorld (AssetBalance.mkState (Some "0") false None) [])).
Proof.
  intros Hk. apply truthy_nonempty in Hk.
  assert (∀ l, Forall (λ y, asset_code y ≠ Some (code (AssetBalance.asset props)) ∨
                   asset_issuer y ≠ Some (issuer (AssetBalance.asset props))) l →
               Forall (λ y, AssetBalance.matches props y = false) l) as Hno.
  { intros l Hl. eapply Forall_impl; [exact Hl|].
    intros y Hy. unfold AssetBalance.matches.
    apply andb_false_iff. rewrite !bool_decide_eq_false. tauto. }
  unfold AssetBalance.fetchBalance. rewrite Hk. exec_view. split.
  - intros l1 b l2 -> Hl1 Hc Hi.
    rewrite (find_first _ l1 l2 b); [done | by apply Hno |].
    unfold AssetBalance.matches. by rewrite !bool_decide_eq_true_2.
  - intros Hall. by rewrite find_none by by apply Hno.
Qed.

Lemma fetchBalance_found_witness :
  AssetBalance.run
    (AssetBalance.fetchBalance (AssetBalance.mkProps "GABC" USDC_TESTNET)
       (inr (mkAccount "7"
          [ mkBalance None None "100.0000000";
            mkBalance (Some "USDC") (Some "GOTHERISSUER") "3.0000000";
            mkBalance (Some "USDC") (Some (issuer USDC_TESTNET)) "50.0000000" ])))
    AssetBalance.initial
  = (inr tt, mkWorld (AssetBalance.mkState (Some "50.0000000") false None) []).
Proof.
  refine (proj1 (fetchBalance_found (AssetBalance.mkProps "GABC" USDC_TESTNET)
                   (mkAccount "7"
                      [ mkBalance None None "100.0000000";
                        mkBalance (Some "USDC") (Some "GOTHERISSUER") "3.0000000";
                        mkBalance (Some "USDC") (Some (issuer USDC_TESTNET))
                          "50.0000000" ])
                   AssetBalance.initial _)
            [ mkBalance None None "100.0000000";
              mkBalance (Some "USDC") (Some "GOTHERISSUER") "3.0000000" ]
            (mkBalance (Some "USDC") (Some (issuer USDC_TESTNET)) "50.0000000")
            [] eq_refl _ eq_refl eq_refl).
  - discriminate.
  - apply Forall_cons. split; [left; discriminate|].
    apply Forall_cons. split; [right; discriminate|]. apply Forall_nil_2.
Defined.

(** X16: when the ledger rejects, [fetchBalance] keeps the balance it
    showed before, turns the spinner off, writes the rejection to the
    console and shows: the fixed text about the missing account for status
    404, otherwise the message of the rejection after "Error: ", or the
    word "desconocido" when there is no message. *)
Theorem fetchBalance_rejected (props : AssetBalance.Props)
    (err : AssetBalance.Rejection) (c : AssetBalance.State) :
  AssetBalance.publicKey props ≠ "" →
  let text :=
    if decide (AssetBalance.http_status err = Some 404)
    then "Cuenta no encontrada. ¿Tienes XLM en testnet?"
    else match message (AssetBalance.thrown err) with
         | Some m => "Error: " +:+ m
         | None => "Error: desconocido"
         end in
  AssetBalance.run (AssetBalance.fetchBalance props (inl err)) c
  = (inr tt,
     mkWorld (AssetBalance.mkState (AssetBalance.balance c) false (Some text))
       [console_error [a_str "Error fetching balance:";
                       a_err (AssetBalance.thrown err)]]).
Proof.
  intros Hk text. apply truthy_nonempty in Hk.
  unfold AssetBalance.fetchBalance. rewrite Hk. exec_view. subst text.
  case_decide; exec_view; [done|].
  unfold AssetBalance.nullish_or. by destruct (message _).
Qed.

Lemma fetchBalance_rejected_witness :
  AssetBalance.run
    (AssetBalance.fetchBalance (AssetBalance.mkProps "GABC" USDC_TESTNET)
       (inl (AssetBalance.mkRejection
               (newError "Request failed with status code 404") (Some 404))))
    (AssetBalance.mkState (Some "50.0000000") false None)
  = (inr tt,
     mkWorld (AssetBalance.mkState (Some "50.0000000") false
                (Some "Cuenta no encontrada. ¿Tienes XLM en testnet?"))
       [console_error [a_str "Error fetching balance:";
                       a_err (newError "Request failed with status code 404")]]).
Proof.
  apply (fetchBalance_rejected (AssetBalance.mkProps "GABC" USDC_TESTNET)).
  discriminate.
Defined.

(** * Further properties of the trustline action *)

(** X17: [checkExistingTrustline] never throws and never touches the state
    of the component. A trustline found on the ledger is reported with
    source [blockchain] without a word on the console, whatever the database
    would say; the database counts only when the ledger answered and does
    not have the trustline; an unreachable ledger or a failing [select]
    means "not found". *)
Theorem checkExistingTrustline_spec (props : CreateTrustline.Props)
    (ext : CreateTrustline.Answers) (pk : string)
    (w : World CreateTrustline.Row CreateTrustline.State) :
  let r := CreateTrustline.checkExistingTrustline props ext pk w in
  let onChain := ∃ account,
    CreateTrustline.check_loadAccount ext = inr account ∧
    existsb (CreateTrustline.holds_asset props) (balances account) = true in
  let inDatabase := ∃ account row rows,
    CreateTrustline.check_loadAccount ext = inr account ∧
    existsb (CreateTrustline.holds_asset props) (balances account) = false ∧
    CreateTrustline.check_select ext
    = CreateTrustline.mkSelectResult (Some (row :: rows)) None in
  comp r.2 = comp w ∧
  (onChain → r = (inr (true, Some CreateTrustline.blockchain), w)) ∧
  (inDatabase → r = (inr (true, Some CreateTrustline.database), w)) ∧
  (¬ onChain → ¬ inDatabase → r.1 = inr (false, None)).
Proof.
  destruct ext as [ga cl cs la na bt st nt sub ins]. destruct w as [c out].
  unfold CreateTrustline.checkExistingTrustline.
  cbn [CreateTrustline.check_loadAccount CreateTrustline.check_select].
  destruct cl as [e|account]; exec;
    [| destruct (existsb (CreateTrustline.holds_asset props) (balances account))
         eqn:Hex; exec;
       [| destruct cs as [data [error|]];
          cbn [CreateTrustline.select_error CreateTrustline.select_data]; exec;
          [| destruct data as [[|row rows]|]; exec ] ] ].
  all: repeat split; try done.
  all: try (intros Hno _; destruct Hno; by exists account).
  all: try (intros (? & [= <-] & ?); congruence).
  all: try (intros (? & ? & ? & [= <-] & ? & ?); congruence).
  all: try (by intros (? & [=] & _)).
  all: try (by intros (? & ? & ? & [=] & _)).
  all: try (by intros (? & ? & ? & _ & _ & [=])).
  all: intros _ Hno; destruct Hno; by exists account, row, rows.
Qed.

Lemma checkExistingTrustline_spec_witness :
  CreateTrustline.checkExistingTrustline
    (CreateTrustline.mkProps USDC_TESTNET true)
    (CreateTrustline.mkAnswers (inl (newError "unused"))
       (inr (mkAccount "7"
          [mkBalance (Some "USDC") (Some (issuer USDC_TESTNET)) "0.0000000"]))
       (CreateTrustline.mkSelectResult None (Some (mkDbError "down" "500")))
       (inl (newError "unused")) None (inl (newError "unused"))
       (inl (newError "unused")) None (inl (newError "unused")) None)
    "GABC" (mkWorld CreateTrustline.initial [])
  = (inr (true, Some CreateTrustline.blockchain),
     mkWorld CreateTrustline.initial []).
Proof.
  refine (proj1 (proj2 (checkExistingTrustline_spec
    (CreateTrustline.mkProps USDC_TESTNET true)
    (CreateTrustline.mkAnswers (inl (newError "unused"))
       (inr (mkAccount "7"
          [mkBalance (Some "USDC") (Some (issuer USDC_TESTNET)) "0.0000000"]))
       (CreateTrustline.mkSelectResult None (Some (mkDbError "down" "500")))
       (inl (newError "unused")) None (inl (newError "unused"))
       (inl (newError "unused")) None (inl (newError "unused")) None)
    "GABC" (mkWorld CreateTrustline.initial []))) _).
  eexists. split; reflexivity.
Defined.

Lemma existsb_find {A} (p : A → bool) (l : list A) :
  existsb p l = true ↔ ∃ x, List.find p l = Some x ∧ x ∈ l ∧ p x = true.
Proof.
  induction l as [|y l IH]; simpl.
  - split; [done | by intros (? & [=] & _)].
  - destruct (p y) eqn:Hy; simpl.
    + split; [|done]. intros _. exists y. split; [done|]. split; [|done].
      apply elem_of_cons. by left.
    + rewrite IH. split; intros (x & Hf & Hx & Hp); exists x;
        (split; [done|]); (split; [|done]).
      * apply elem_of_cons. by right.
      * apply elem_of_cons in Hx as [->|Hx]; [congruence|done].
Qed.

(** X18: the trustline check and the balance view read the ledger alike.
    For the same asset and the same answer of the ledger, the check finds
    the trustline on the ledger exactly when the balance view shows the
    balance of one of the account's entries for that asset, not its
    default. *)
Theorem check_agrees_with_balance (props : CreateTrustline.Props)
    (key : string) (account : Account) (c : AssetBalance.State) :
  key ≠ "" →
  existsb (CreateTrustline.holds_asset props) (balances account) = true
  ↔ ∃ b, b ∈ balances account ∧
         asset_code b = Some (code (CreateTrustline.asset props)) ∧
         asset_issuer b = Some (issuer (CreateTrustline.asset props)) ∧
         AssetBalance.run
           (AssetBalance.fetchBalance
              (AssetBalance.mkProps key (CreateTrustline.asset props))
              (inr account)) c
         = (inr tt,
            mkWorld (AssetBalance.mkState (Some (balance b)) false None) []) ∧
         List.find (CreateTrustline.holds_asset props) (balances account) = Some b.
Proof.
  intros Hk. apply truthy_nonempty in Hk. rewrite existsb_find.
  unfold AssetBalance.fetchBalance. cbn [AssetBalance.publicKey]. rewrite Hk.
  exec_view.
  change (AssetBalance.matches
            (AssetBalance.mkProps key (CreateTrustline.asset props)))
    with (CreateTrustline.holds_asset props).
  split.
  - intros (b & Hf & Hb & Hp). exists b. rewrite Hf.
    unfold CreateTrustline.holds_asset in Hp.
    apply andb_prop in Hp as [Hc Hi].
    apply bool_decide_eq_true in Hc, Hi. by repeat split.
  - intros (b & Hb & Hc & Hi & _ & Hf). exists b. repeat split; try done.
    unfold CreateTrustline.holds_asset. by rewrite !bool_decide_eq_true_2.
Qed.

Lemma check_agrees_with_balance_witness :
  existsb (CreateTrustline.holds_asset (CreateTrustline.mkProps USDC_TESTNET true))
    (balances (mkAccount "7" [mkBalance None None "1.0000000"])) = true
  ↔ ∃ b, b ∈ balances (mkAccount "7" [mkBalance None None "1.0000000"]) ∧
         asset_code b = Some "USDC" ∧
         asset_issuer b = Some (issuer USDC_TESTNET) ∧
         AssetBalance.run
           (AssetBalance.fetchBalance (AssetBalance.mkProps "GABC" USDC_TESTNET)
              (inr (mkAccount "7" [mkBalance None None "1.0000000"])))
           AssetBalance.initial
         = (inr tt,
            mkWorld (AssetBalance.mkState (Some (balance b)) false None) []) ∧
         List.find
           (CreateTrustline.holds_asset (CreateTrustline.mkProps USDC_TESTNET true))
           (balances (mkAccount "7" [mkBalance None None "1.0000000"])) = Some b.
Proof.
  apply (check_agrees_with_balance (CreateTrustline.mkProps USDC_TESTNET true)
           "GABC" (mkAccount "7" [mkBalance None None "1.0000000"])
           AssetBalance.initial).
  discriminate.
Defined.

(** [H] says that an output occurs in a list: either it differs from every
    entry, or it is the database row, which fixes its fields. *)
Ltac locate H :=
  repeat (apply elem_of_cons in H as [H|H];
          [first [discriminate H | by injection H as -> ->] |]);
  apply elem_of_nil in H; destruct H.

Ltac no_insert :=
  let t := fresh in let row := fresh in let H := fresh in
  intros t row H; absent H.

Ltac no_line :=
  let e := fresh in let H := fresh in intros e H; absent H.

Ltac no_callback := let H := fresh in intros H; absent H.

Ltac leaf_error :=
  right; right; eexists;
  split; [reflexivity|]; split; [reflexivity|]; split; [occurs|];
  split; [no_insert | no_callback].

Ltac leaf_warning :=
  right; left;
  split; [reflexivity|]; split; [reflexivity|];
  split; [no_insert|]; split; [no_callback | no_line].

Ltac leaf_success :=
  left; eexists _, _, _;
  split; [reflexivity|]; split; [reflexivity|];
  split; [reflexivity|]; split; [reflexivity|];
  split;
  [ let t := fresh in let row := fresh in let H := fresh in
    intros t row; split; [intros H; locate H | intros [-> ->]; occurs]
  | split;
    [ split; [first [done | no_callback] | first [discriminate | intros _; occurs]]
    | no_line ] ].

Ltac leaf :=
  split; [reflexivity|]; split; [reflexivity|];
  first [leaf_error | leaf_warning | leaf_success].

Ltac fork x := destruct x; exec; try solve [leaf].

(** The three ways a run of [createTrustline] ends. *)
Lemma createTrustline_outcome (props : CreateTrustline.Props)
    (ext : CreateTrustline.Answers) (c : CreateTrustline.State) :
  let r := CreateTrustline.run (CreateTrustline.createTrustline props ext) c in
  r.1 = inr tt ∧
  CreateTrustline.loading (comp r.2) = false ∧
  ((∃ k err h,
      CreateTrustline.getAddress ext = inr (mkAddressResult k err) ∧
      CreateTrustline.submitTransaction ext = inr (mkSubmitResult h) ∧
      CreateTrustline.status (comp r.2) = CreateTrustline.success props ∧
      CreateTrustline.trustlineExists (comp r.2) = true ∧
      (∀ t row, db_insert t row ∈ outputs r.2 ↔
         (t = "trustlines" ∧
          row = CreateTrustline.mkRow k (code (CreateTrustline.asset props))
                  (issuer (CreateTrustline.asset props)) 10000 h)) ∧
      (on_success ∈ outputs r.2 ↔ CreateTrustline.onSuccess props = true) ∧
      (∀ e, CreateTrustline.caught_log e ∉ outputs r.2)) ∨
   (CreateTrustline.status (comp r.2)
    = mkStatus st_warning
        ("⚠️ Ya tienes una trustline para "
         +:+ code (CreateTrustline.asset props)
         +:+ ". No necesitas crear otra.") ∧
    CreateTrustline.trustlineExists (comp r.2) = true ∧
    (∀ t row, db_insert t row ∉ outputs r.2) ∧
    (on_success ∉ outputs r.2) ∧
    (∀ e, CreateTrustline.caught_log e ∉ outputs r.2)) ∨
   (∃ e,
      CreateTrustline.status (comp r.2) = trustlineErrorStatus e ∧
      CreateTrustline.trustlineExists (comp r.2)
      = CreateTrustline.trustlineExists c ∧
      CreateTrustline.caught_log e ∈ outputs r.2 ∧
      (∀ t row, db_insert t row ∉ outputs r.2) ∧
      on_success ∉ outputs r.2)).
Proof.
  destruct ext as [ga cl cs la na bt st nt sub ins]. destruct c as [ld stat tl].
  unfold CreateTrustline.createTrustline, CreateTrustline.checkExistingTrustline,
    CreateTrustline.caught_log, CreateTrustline.success.
  cbn [CreateTrustline.getAddress CreateTrustline.check_loadAccount
       CreateTrustline.check_select CreateTrustline.loadAccount
       CreateTrustline.newAsset CreateTrustline.build_toXDR
       CreateTrustline.signTransaction CreateTrustline.newTransaction
       CreateTrustline.submitTransaction CreateTrustline.insert].
  cbv zeta.
  destruct ga as [e|[pk err]]; exec; [leaf|].
  fork (truthy_opt err).
  fork (Js.truthy pk).
  destruct cl as [e|account]; exec;
    [| destruct (existsb (CreateTrustline.holds_asset props) (balances account));
       exec; [leaf|];
       destruct cs as [data [error|]];
       cbn [CreateTrustline.select_error CreateTrustline.select_data]; exec;
       [| destruct data as [[|row data]|]; exec; [|leaf|] ] ].
  all: fork la.
  all: fork na.
  all: fork bt.
  all: destruct st as [e'|[signed serr]]; exec; try solve [leaf].
  all: fork (truthy_opt serr).
  all: fork nt.
  all: destruct sub as [e'|[hh]]; exec; try solve [leaf].
  all: destruct ins; exec.
  all: destruct (CreateTrustline.onSuccess props); exec.
  all: leaf.
Qed.

(** X19: a run of [createTrustline] never throws, whatever the
    collaborators answer, and always ends with the spinner off and a
    message to show: success, the warning about an existing trustline, or an
    error. The status is an error exactly when the [catch] block ran; a
    trustline known to exist is never forgotten. *)
Theorem createTrustline_total (props : CreateTrustline.Props)
    (ext : CreateTrustline.Answers) (c : CreateTrustline.State) :
  let r := CreateTrustline.run (CreateTrustline.createTrustline props ext) c in
  r.1 = inr tt ∧
  CreateTrustline.loading (comp r.2) = false ∧
  type (CreateTrustline.status (comp r.2)) ≠ st_empty ∧
  msg (CreateTrustline.status (comp r.2)) ≠ "" ∧
  (type (CreateTrustline.status (comp r.2)) = st_error
   ↔ ∃ e, CreateTrustline.caught_log e ∈ outputs r.2) ∧
  (CreateTrustline.trustlineExists c = true →
   CreateTrustline.trustlineExists (comp r.2) = true).
Proof.
  pose proof (createTrustline_outcome props ext c) as H. cbv zeta in H |- *.
  set (r := CreateTrustline.run (CreateTrustline.createTrustline props ext) c) in *.
  clearbody r.
  destruct H as (Hr & Hl & [(k & err & h & _ & _ & Hs & Ht & _ & _ & Hno)
                           | [(Hs & Ht & _ & _ & Hno)
                             | (e & Hs & Ht & Hin & _)]]);
    rewrite Hs; repeat split; try done.
  - by intros (e & He%Hno).
  - by intros (e & He%Hno).
  - by exists e.
  - congruence.
Qed.

Lemma createTrustline_total_witness :
  CreateTrustline.trustlineExists
    (comp (CreateTrustline.run
             (CreateTrustline.createTrustline
                (CreateTrustline.mkProps USDC_TESTNET true)
                (CreateTrustline.mkAnswers (inl (newError "no wallet"))
                   (inl (newError "unused")) (CreateTrustline.mkSelectResult None None)
                   (inl (newError "unused")) None (inl (newError "unused"))
                   (inl (newError "unused")) None (inl (newError "unused")) None))
             (CreateTrustline.mkState false (mkStatus st_empty "") true)).2)
  = true.
Proof.
  refine (proj2 (proj2 (proj2 (proj2 (proj2 (createTrustline_total
    (CreateTrustline.mkProps USDC_TESTNET true)
    (CreateTrustline.mkAnswers (inl (newError "no wallet"))
       (inl (newError "unused")) (CreateTrustline.mkSelectResult None None)
       (inl (newError "unused")) None (inl (newError "unused"))
       (inl (newError "unused")) None (inl (newError "unused")) None)
    (CreateTrustline.mkState false (mkStatus st_empty "") true)))))) eq_refl).
Defined.

(** X20: [createTrustline] writes to the database, and calls [onSuccess],
    only for a transaction the ledger accepted. A row it inserts goes to the
    [trustlines] table and carries the address the wallet answered, the
    asset of the component, the limit 10000 and the hash the ledger
    returned; the component then shows success. With the warning or an
    error shown, nothing was inserted and the parent was not called. *)
Theorem createTrustline_records_accepted (props : CreateTrustline.Props)
    (ext : CreateTrustline.Answers) (c : CreateTrustline.State) :
  let r := CreateTrustline.run (CreateTrustline.createTrustline props ext) c in
  (∀ t row, db_insert t row ∈ outputs r.2 →
     t = "trustlines" ∧
     CreateTrustline.submitTransaction ext
     = inr (mkSubmitResult (CreateTrustline.tx_hash row)) ∧
     (∃ err, CreateTrustline.getAddress ext
             = inr (mkAddressResult (CreateTrustline.user_id row) err)) ∧
     CreateTrustline.row_asset_code row = code (CreateTrustline.asset props) ∧
     CreateTrustline.row_asset_issuer row = issuer (CreateTrustline.asset props) ∧
     CreateTrustline.trust_limit row = 10000 ∧
     CreateTrustline.status (comp r.2) = CreateTrustline.success props) ∧
  (on_success ∈ outputs r.2 →
     CreateTrustline.status (comp r.2) = CreateTrustline.success props ∧
     CreateTrustline.onSuccess props = true) ∧
  (type (CreateTrustline.status (comp r.2)) ≠ st_success →
     (∀ t row, db_insert t row ∉ outputs r.2) ∧ on_success ∉ outputs r.2).
Proof.
  pose proof (createTrustline_outcome props ext c) as H. cbv zeta in H |- *.
  set (r := CreateTrustline.run (CreateTrustline.createTrustline props ext) c) in *.
  clearbody r.
  destruct H as (Hr & Hl & [(k & err & h & Hga & Hsub & Hs & Ht & Hrow & Hcb & Hno)
                           | [(Hs & Ht & Hrow & Hcb & Hno)
                             | (e & Hs & Ht & Hin & Hrow & Hcb)]]).
  - split; [|split].
    + intros t row [-> ->]%Hrow. simpl. repeat split; try done. by exists err.
    + intros Hin%Hcb. done.
    + rewrite Hs. done.
  - split; [|split]; [by intros t row ?%Hrow | done | done].
  - split; [|split]; [by intros t row ?%Hrow | done | done].
Qed.

Lemma createTrustline_records_accepted_witness :
  CreateTrustline.status
    (comp (CreateTrustline.run
             (CreateTrustline.createTrustline
                (CreateTrustline.mkProps USDC_TESTNET true)
                CreateTrustline.accepted)
             CreateTrustline.initial).2)
  = CreateTrustline.success (CreateTrustline.mkProps USDC_TESTNET true).
Proof.
  refine (proj1 (proj1 (proj2 (createTrustline_records_accepted
    (CreateTrustline.mkProps USDC_TESTNET true) CreateTrustline.accepted
    CreateTrustline.initial)) _)).
  vm_compute. occurs.
Defined.

(** * Further properties of the payment action *)

Ltac pay_error :=
  right; eexists;
  split; [reflexivity|]; split; [occurs | no_insert].

Ltac pay_success :=
  left; eexists _, _, _;
  split; [reflexivity|]; split; [reflexivity|]; split; [reflexivity|];
  split;
  [ let t := fresh in let row := fresh in let H := fresh in
    intros t row; split; [intros H; locate H | intros [-> ->]; occurs]
  | no_line ].

Ltac pay_leaf :=
  split; [reflexivity|]; split; [eexists; reflexivity|];
  first [pay_error | pay_success].

(** The two ways a run of [sendPathPayment] ends. *)
Lemma sendPathPayment_outcome {Number : Type}
    (parseFloat : string → Number) (nonPositive : Number → bool)
    (props : PathPayment.Props) (ext : PathPayment.Answers)
    (c : PathPayment.State) :
  let r := PathPayment.run
             (PathPayment.sendPathPayment parseFloat nonPositive props ext) c in
  r.1 = inr tt ∧
  (∃ st, comp r.2
         = PathPayment.mkState (PathPayment.amount c) (PathPayment.destination c)
             false st) ∧
  ((∃ k err h,
      PathPayment.getAddress ext = inr (mkAddressResult k err) ∧
      PathPayment.submitTransaction ext = inr (mkSubmitResult h) ∧
      PathPayment.status (comp r.2) = PathPayment.success h ∧
      (∀ t row, db_insert t row ∈ outputs r.2 ↔
         (t = "transactions" ∧
          row = PathPayment.mkRow k "path_payment" h
                  (PathPayment.getCode (PathPayment.sourceAsset props))
                  (PathPayment.getCode (PathPayment.destAsset props))
                  (parseFloat (PathPayment.amount c)))) ∧
      (∀ e, PathPayment.caught_log e ∉ outputs r.2)) ∨
   (∃ e,
      PathPayment.status (comp r.2) = paymentErrorStatus e ∧
      PathPayment.caught_log e ∈ outputs r.2 ∧
      (∀ t row, db_insert t row ∉ outputs r.2))).
Proof.
  destruct ext as [ga la bt st nt sub ins]. destruct c as [amt dst ld stat].
  unfold PathPayment.sendPathPayment, PathPayment.caught_log, PathPayment.success.
  cbn [PathPayment.getAddress PathPayment.loadAccount PathPayment.build_toXDR
       PathPayment.signTransaction PathPayment.newTransaction
       PathPayment.submitTransaction PathPayment.insert].
  cbv zeta. exec.
  destruct (Js.truthy amt); cbn [orb]; exec; [|pay_leaf].
  destruct (nonPositive (parseFloat amt)); exec; [pay_leaf|].
  destruct ga as [e|[pk err]]; exec; [pay_leaf|].
  destruct (truthy_opt err); exec; [pay_leaf|].
  destruct (Js.truthy pk); exec; [|pay_leaf].
  destruct la; exec; [pay_leaf|].
  match goal with |- context [bt ?op] => destruct (bt op) end; exec; [pay_leaf|].
  destruct st as [e'|[signed serr]]; exec; [pay_leaf|].
  destruct (truthy_opt serr); exec; [pay_leaf|].
  destruct nt; exec; [pay_leaf|].
  destruct sub as [e'|[hh]]; exec; [pay_leaf|].
  destruct ins; exec; pay_leaf.
Qed.

(** X21: a run of [sendPathPayment] never throws, whatever the
    collaborators answer; it leaves the amount and the destination typed in
    as they are, ends with the spinner off, and shows either success or an
    error; the status is an error exactly when the [catch] block ran. *)
Theorem sendPathPayment_total {Number : Type}
    (parseFloat : string → Number) (nonPositive : Number → bool)
    (props : PathPayment.Props) (ext : PathPayment.Answers)
    (c : PathPayment.State) :
  let r := PathPayment.run
             (PathPayment.sendPathPayment parseFloat nonPositive props ext) c in
  r.1 = inr tt ∧
  PathPayment.amount (comp r.2) = PathPayment.amount c ∧
  PathPayment.destination (comp r.2) = PathPayment.destination c ∧
  PathPayment.loading (comp r.2) = false ∧
  (type (PathPayment.status (comp r.2)) = st_success ∨
   type (PathPayment.status (comp r.2)) = st_error) ∧
  (type (PathPayment.status (comp r.2)) = st_error
   ↔ ∃ e, PathPayment.caught_log e ∈ outputs r.2).
Proof.
  pose proof (sendPathPayment_outcome parseFloat nonPositive props ext c) as H.
  cbv zeta in H |- *.
  set (r := PathPayment.run
              (PathPayment.sendPathPayment parseFloat nonPositive props ext) c)
    in *.
  clearbody r.
  destruct H as (Hr & (st & Hc) & [(k & err & h & _ & _ & Hs & _ & Hno)
                                  | (e & Hs & Hin & _)]);
    rewrite Hs; rewrite Hc; simpl; repeat split; try done.
  - by left.
  - by intros (e & He%Hno).
  - by right.
  - by exists e.
Qed.

(** X22: [sendPathPayment] writes to the database only for a payment the
    ledger accepted. A row it inserts goes to the [transactions] table with
    type [path_payment], the address the wallet answered, the hash the
    ledger returned, the codes of the two assets of the component and the
    parsed amount; the component then shows success with that hash. *)
Theorem sendPathPayment_records_accepted {Number : Type}
    (parseFloat : string → Number) (nonPositive : Number → bool)
    (props : PathPayment.Props) (ext : PathPayment.Answers)
    (c : PathPayment.State) (t : string) (row : PathPayment.Row Number) :
  let r := PathPayment.run
             (PathPayment.sendPathPayment parseFloat nonPositive props ext) c in
  db_insert t row ∈ outputs r.2 →
  t = "transactions" ∧
  PathPayment.tx_type _ row = "path_payment" ∧
  PathPayment.submitTransaction ext
  = inr (mkSubmitResult (PathPayment.tx_hash _ row)) ∧
  (∃ err, PathPayment.getAddress ext
          = inr (mkAddressResult (PathPayment.user_id _ row) err)) ∧
  PathPayment.source_asset _ row
  = PathPayment.getCode (PathPayment.sourceAsset props) ∧
  PathPayment.dest_asset _ row
  = PathPayment.getCode (PathPayment.destAsset props) ∧
  PathPayment.row_amount _ row = parseFloat (PathPayment.amount c) ∧
  PathPayment.status (comp r.2)
  = PathPayment.success (PathPayment.tx_hash _ row).
Proof.
  pose proof (sendPathPayment_outcome parseFloat nonPositive props ext c) as H.
  cbv zeta in H |- *.
  set (r := PathPayment.run
              (PathPayment.sendPathPayment parseFloat nonPositive props ext) c)
    in *.
  clearbody r.
  destruct H as (Hr & _ & [(k & err & h & Hga & Hsub & Hs & Hrow & Hno)
                          | (e & Hs & Hin & Hrow)]).
  - intros [-> ->]%Hrow. simpl. repeat split; try done. by exists err.
  - by intros ?%Hrow.
Qed.

Lemma sendPathPayment_records_accepted_witness :
  PathPayment.status
    (comp (PathPayment.run
             (PathPayment.sendPathPayment (λ _ : string, 5) (λ x, (x <=? 0)%Z)
                (PathPayment.mkProps PathPayment.native
                   (PathPayment.mkSdkAsset "USDC" (Some (issuer USDC_TESTNET))))
                PathPayment.accepted)
             (PathPayment.mkState "5" "" false (mkStatus st_empty ""))).2)
  = PathPayment.success "cafe0123456789".
Proof.
  refine (proj2 (proj2 (proj2 (proj2 (proj2 (proj2 (proj2
    (sendPathPayment_records_accepted (λ _ : string, 5) (λ x, (x <=? 0)%Z)
       (PathPayment.mkProps PathPayment.native
          (PathPayment.mkSdkAsset "USDC" (Some (issuer USDC_TESTNET))))
       PathPayment.accepted
       (PathPayment.mkState "5" "" false (mkStatus st_empty ""))
       "transactions"
       (PathPayment.mkRow "GABC" "path_payment" "cafe0123456789" "XLM" "USDC" 5)
       _)))))))).
  vm_compute. occurs.
Defined.

(** X23: an amount that is empty, or that parses to a number not above
    zero, stops [sendPathPayment] before anybody is asked: the run is the
    same whatever the collaborators would answer, and it shows the request
    for a valid amount. *)
Theorem sendPathPayment_invalid_amount {Number : Type}
    (parseFloat : string → Number) (nonPositive : Number → bool)
    (props : PathPayment.Props) (ext : PathPayment.Answers)
    (c : PathPayment.State) :
  PathPayment.amount c = "" ∨
  nonPositive (parseFloat (PathPayment.amount c)) = true →
  PathPayment.run
    (PathPayment.sendPathPayment parseFloat nonPositive props ext) c
  = (inr tt,
     mkWorld
       (PathPayment.mkState (PathPayment.amount c) (PathPayment.destination c)
          false (mkStatus st_error "❌ Ingresa una cantidad válida"))
       [PathPayment.caught_log (newError "Ingresa una cantidad válida")]).
Proof.
  destruct c as [amt dst ld stat]. simpl. intros Hbad.
  unfold PathPayment.sendPathPayment, PathPayment.caught_log. exec.
  destruct Hbad as [-> | Hnp].
  - change (Js.truthy "") with false. by exec.
  - destruct (Js.truthy amt); cbn [orb]; exec; [|done].
    rewrite Hnp. by exec.
Qed.

Lemma sendPathPayment_invalid_amount_witness :
  PathPayment.run
    (PathPayment.sendPathPayment (λ _ : string, 0) (λ x, (x <=? 0)%Z)
       (PathPayment.mkProps PathPayment.native PathPayment.native)
       PathPayment.accepted)
    (PathPayment.mkState "0" "" false (mkStatus st_empty ""))
  = (inr tt,
     mkWorld
       (PathPayment.mkState "0" "" false
          (mkStatus st_error "❌ Ingresa una cantidad válida"))
       [PathPayment.caught_log (newError "Ingresa una cantidad válida")]).
Proof.
  apply (sendPathPayment_invalid_amount (λ _ : string, 0) (λ x, (x <=? 0)%Z)
           (PathPayment.mkProps PathPayment.native PathPayment.native)
           PathPayment.accepted
           (PathPayment.mkState "0" "" false (mkStatus st_empty ""))).
  right. reflexivity.
Defined.

(** X24: the transaction builder is asked for one operation only, which
    the run fixes before asking: a strict send of the amount typed in, from
    the source asset to the destination asset (each replaced by the native
    asset when its code is XLM), with the minimum "0.0000001", addressed to
    the destination typed in or, when that is empty, to the sender. When the
    wallet does not answer, the builder is not asked at all. *)
Theorem sendPathPayment_operation {Number : Type}
    (parseFloat : string → Number) (nonPositive : Number → bool)
    (props : PathPayment.Props) (ext : PathPayment.Answers)
    (c : PathPayment.State) :
  (∀ k err,
     PathPayment.getAddress ext = inr (mkAddressResult k err) →
     PathPayment.run
       (PathPayment.sendPathPayment parseFloat nonPositive props ext) c
     = PathPayment.run
         (PathPayment.sendPathPayment parseFloat nonPositive props
            (with_builder
               (λ _, PathPayment.build_toXDR ext
                       (PathPayment.mkOperation
                          (normalized (PathPayment.sourceAsset props))
                          (PathPayment.amount c)
                          (if decide (PathPayment.destination c = "")
                           then k else PathPayment.destination c)
                          (normalized (PathPayment.destAsset props))
                          "0.0000001"))
               ext)) c) ∧
  (∀ e build,
     PathPayment.getAddress ext = inl e →
     PathPayment.run
       (PathPayment.sendPathPayment parseFloat nonPositive props ext) c
     = PathPayment.run
         (PathPayment.sendPathPayment parseFloat nonPositive props
            (with_builder build ext)) c).
Proof.
  destruct ext as [ga la bt st nt sub ins]. destruct c as [amt dst ld stat].
  unfold PathPayment.sendPathPayment, with_builder, normalized.
  cbn [PathPayment.getAddress PathPayment.loadAccount PathPayment.build_toXDR
       PathPayment.signTransaction PathPayment.newTransaction
       PathPayment.submitTransaction PathPayment.insert
       PathPayment.amount PathPayment.destination].
  split.
  - intros k err ->. exec.
    destruct (Js.truthy amt); cbn [orb]; exec; [|done].
    destruct (nonPositive (parseFloat amt)); exec; [done|].
    destruct (truthy_opt err); exec; [done|].
    destruct (Js.truthy k); exec; [|done].
    destruct la; exec; [done|].
    assert ((if Js.truthy dst then dst else k)
            = (if decide (dst = "") then k else dst)) as ->.
    { destruct (decide (dst = "")) as [->|Hne]; [done|].
      apply truthy_nonempty in Hne. by rewrite Hne. }
    reflexivity.
  - intros e build ->. exec.
    destruct (Js.truthy amt); cbn [orb]; exec; [|done].
    by destruct (nonPositive (parseFloat amt)).
Qed.

Lemma sendPathPayment_operation_witness :
  PathPayment.run
    (PathPayment.sendPathPayment (λ _ : string, 5) (λ x, (x <=? 0)%Z)
       (PathPayment.mkProps (PathPayment.mkSdkAsset "XLM" (Some "GANY"))
          (PathPayment.mkSdkAsset "USDC" (Some (issuer USDC_TESTNET))))
       (with_builder (λ op, inr (PathPayment.op_destination op))
          PathPayment.accepted))
    (PathPayment.mkState "5" "" false (mkStatus st_empty ""))
  = PathPayment.run
      (PathPayment.sendPathPayment (λ _ : string, 5) (λ x, (x <=? 0)%Z)
         (PathPayment.mkProps (PathPayment.mkSdkAsset "XLM" (Some "GANY"))
            (PathPayment.mkSdkAsset "USDC" (Some (issuer USDC_TESTNET))))
         (with_builder (λ _, inr "GABC") PathPayment.accepted))
      (PathPayment.mkState "5" "" false (mkStatus st_empty "")).
Proof.
  apply (proj1 (sendPathPayment_operation (λ _ : string, 5) (λ x, (x <=? 0)%Z)
           (PathPayment.mkProps (PathPayment.mkSdkAsset "XLM" (Some "GANY"))
              (PathPayment.mkSdkAsset "USDC" (Some (issuer USDC_TESTNET))))
           (with_builder (λ op, inr (PathPayment.op_destination op))
              PathPayment.accepted)
           (PathPayment.mkState "5" "" false (mkStatus st_empty "")))
          "GABC" None eq_refl).
Defined.
